(** * Conway's Game of Life (game_of_life.py): a shallow embedding

    The Python class [GameOfLife] keeps a flat list of booleans ([grid]),
    a parallel result list ([res]) and the integers [size] and [dim].
    Indices are Python integers, so they are modelled in [Z]; list
    indexing follows Python (negative indices count from the end, anything
    else out of range raises [IndexError]); [%] raises
    [ZeroDivisionError] on a zero divisor. *)

From Stdlib Require Import ZArith List Bool Lia QArith String Ascii.
Import ListNotations.
Open Scope Z_scope.

(** ** Python values and exceptions *)

Module Py.

Inductive exn : Type :=
| IndexError
| ZeroDivisionError
| ValueError
| IOError
| Exception (inner : exn).

Inductive result (A : Type) : Type :=
| Ok (a : A)
| Raise (e : exn).
Arguments Ok {A} a.
Arguments Raise {A} e.

(** [len(l)] *)
Definition len {A : Type} (l : list A) : Z := Z.of_nat (List.length l).

(** [l[i]]: a negative index is taken from the end of the list. *)
Definition index {A : Type} (l : list A) (i : Z) : result A :=
  let j := if i <? 0 then i + len l else i in
  if (0 <=? j) && (j <? len l)
  then match nth_error l (Z.to_nat j) with
       | Some a => Ok a
       | None => Raise IndexError
       end
  else Raise IndexError.

(** [a % b] on integers (floored, as [Z.modulo] is). *)
Definition modulo (a b : Z) : result Z :=
  if b =? 0 then Raise ZeroDivisionError else Ok (a mod b).

(** [xrange(n)]; empty when [n <= 0]. *)
Definition xrange (n : Z) : list Z := map Z.of_nat (seq 0 (Z.to_nat n)).

(** [c in (2, 3)] *)
Definition in_2_3 (c : Z) : bool := (c =? 2) || (c =? 3).

(** [l.count(True)] *)
Definition count_True (l : list bool) : Z :=
  Z.of_nat (count_occ bool_dec l true).

End Py.
Import Py.

(** ** Computations that read the grid

    A computation returns a value or raises, and records the list of grid
    indices it has subscripted, in order. *)

Definition M (A : Type) : Type := (result A * list Z)%type.

Definition ret {A : Type} (a : A) : M A := (Ok a, []).

Definition bind {A B : Type} (m : M A) (f : A -> M B) : M B :=
  match m with
  | (Ok a, l) => let '(r, l') := f a in (r, l ++ l')
  | (Raise e, l) => (Raise e, l)
  end.

Definition lift {A : Type} (r : result A) : M A := (r, []).

Definition value {A : Type} (m : M A) : result A := fst m.

Definition reads {A : Type} (m : M A) : list Z := snd m.

Notation "x <- m ;; k" := (bind m (fun x => k))
  (at level 61, m at next level, right associativity).

(** ** The object state *)

Record GameOfLife : Type := mkGame {
  grid : list bool;
  res : list bool;
  size : Z;
  dim : Z;
  iterations : option Z;
  god : bool
}.

Definition set_grid (self : GameOfLife) (g : list bool) : GameOfLife :=
  mkGame g (res self) (size self) (dim self) (iterations self) (god self).

Definition set_res (self : GameOfLife) (r : list bool) : GameOfLife :=
  mkGame (grid self) r (size self) (dim self) (iterations self) (god self).

(** [self.grid[i]] *)
Definition grid_at (self : GameOfLife) (i : Z) : M bool :=
  (index (grid self) i, [i]).

(** [False if q % self.dim == 0 else self.grid[i]] *)
Definition False_if_edge (self : GameOfLife) (q i : Z) : M bool :=
  m <- lift (modulo q (dim self));;
  if m =? 0 then ret false else grid_at self i.

(** ** count_neighbors *)

Definition count_neighbors (self : GameOfLife) (idx : Z) : M (list bool) :=
  let neighbors := [] in
  (* nodes "above" *)
  let p := idx - dim self in
  neighbors <-
    (if p <? 0 then ret (neighbors ++ [false; false; false])
     else
       a <- False_if_edge self p (p - 1);;
       let neighbors := neighbors ++ [a] in
       b <- grid_at self p;;
       let neighbors := neighbors ++ [b] in
       c <- False_if_edge self (p + 1) (p + 1);;
       ret (neighbors ++ [c]));;
  (* one node back *)
  a <- False_if_edge self idx (idx - 1);;
  let neighbors := neighbors ++ [a] in
  (* node in front *)
  b <- False_if_edge self (idx + 1) (idx + 1);;
  let neighbors := neighbors ++ [b] in
  (* nodes "below" *)
  let p := idx + dim self in
  neighbors <-
    (if p >=? size self then ret (neighbors ++ [false; false; false])
     else
       a <- False_if_edge self p (p - 1);;
       let neighbors := neighbors ++ [a] in
       b <- grid_at self p;;
       let neighbors := neighbors ++ [b] in
       c <- False_if_edge self (p + 1) (p + 1);;
       ret (neighbors ++ [c]));;
  ret neighbors.

(** ** assess_neighbors *)

Definition assess_neighbors (self : GameOfLife) (idx : Z) : M bool :=
  ns <- count_neighbors self idx;;
  let c := count_True ns in
  if negb (in_2_3 c) then ret false
  else
    alive <- grid_at self idx;;
    if alive then ret (in_2_3 c) else ret (c =? 3).

(** ** sweep *)

Fixpoint sweep_loop (self : GameOfLife) (todo : list Z) : M GameOfLife :=
  match todo with
  | [] => ret self
  | i :: todo' =>
      b <- assess_neighbors self i;;
      sweep_loop (set_res self (res self ++ [b])) todo'
  end.

Definition sweep (self : GameOfLife) : M GameOfLife :=
  let self := set_res self [] in
  sweep_loop self (xrange (len (grid self))).

(** The two statements at the end of the loop body of [play]:
    [self.sweep()] and [self.grid = self.res[:]]. *)
Definition step (self : GameOfLife) : result GameOfLife :=
  match value (sweep self) with
  | Ok self' => Ok (set_grid self' (res self'))
  | Raise e => Raise e
  end.

(** ** The world outside the object

    [gods_word] is the content of the file [./gods_word] ([None] when it
    cannot be opened); [random k] is the value of the [k]-th call of
    [random.random()] after [random.seed()], a number in the interval
    from 0 (included) to 1 (excluded). *)

Record Env : Type := mkEnv {
  gods_word : option (list ascii);
  random : nat -> Q
}.

(** What the process does that can be observed from outside.  [Display]
    carries the list [tmp] of [display], one entry per glyph, [true] for
    the green star; the layout of the frame is not modelled. *)
Inductive event : Type :=
| Display (tmp : list bool)
| Sleep (seconds : Z)
| Print (msg : string)
| PrintInt (i : Z)
| StderrFormat (template : string) (arg : Z).

Inductive status : Type :=
| Exit (code : Z)
| Uncaught (e : exn).

(** A run is the events so far and how it ended, [None] while it is still
    running when the fuel is used up. *)
Definition run : Type := (list event * option status)%type.

Definition after (evs : list event) (r : run) : run :=
  (evs ++ fst r, snd r).

(** ** initialize *)

(** [while len(words) < self.size: words += words] *)
Fixpoint lengthen (fuel : nat) (words : list ascii) (size : Z)
  : option (list ascii) :=
  match fuel with
  | O => None
  | S fuel' =>
      if len words <? size then lengthen fuel' (words ++ words) size
      else Some words
  end.

(** [bool(ord(ch) % 2)] *)
Definition odd_ord (ch : ascii) : bool :=
  negb (Z.of_nat (nat_of_ascii ch) mod 2 =? 0).

(** [for i in xrange(self.size): self.grid.append(bool(ord(words[i]) % 2))] *)
Fixpoint append_words (self : GameOfLife) (words : list ascii)
  (todo : list Z) : result GameOfLife :=
  match todo with
  | [] => Ok self
  | i :: todo' =>
      match index words i with
      | Ok ch => append_words (set_grid self (grid self ++ [odd_ord ch]))
                   words todo'
      | Raise e => Raise e
      end
  end.

Definition initialize_by_gods_word (env : Env) (fuel : nat)
  (self : GameOfLife) : option (result GameOfLife) :=
  match gods_word env with
  | None => Some (Raise IOError)
  | Some words =>
      match lengthen fuel words (size self) with
      | None => None
      | Some words => Some (append_words self words (xrange (size self)))
      end
  end.

(** [for i in xrange(self.size): self.grid.append(random.random() >= 0.5)] *)
Definition append_random (env : Env) (self : GameOfLife) : GameOfLife :=
  fold_left
    (fun self i =>
       set_grid self (grid self ++ [Qle_bool (1 # 2) (random env (Z.to_nat i))]))
    (xrange (size self)) self.

Definition initialize (env : Env) (fuel : nat) (self : GameOfLife)
  : option (result GameOfLife) :=
  match (if god self then initialize_by_gods_word env fuel self
         else Some (Ok self)) with
  | Some (Ok self) => Some (Ok (append_random env self))
  | other => other
  end.

(** ** display *)

(** The loop that fills [tmp]; on an exception it prints the index and
    raises [Exception(e)]. *)
Fixpoint display_loop (self : GameOfLife) (tmp : list bool) (todo : list Z)
  : list event * result (list bool) :=
  match todo with
  | [] => ([], Ok tmp)
  | i :: todo' =>
      match index (grid self) i with
      | Ok b => display_loop self (tmp ++ [b]) todo'
      | Raise e => ([PrintInt i], Raise (Exception e))
      end
  end.

(** [xrange(0, self.size, self.dim)] raises [ValueError] for a zero step. *)
Definition display (self : GameOfLife) : list event * result unit :=
  match display_loop self [] (xrange (size self)) with
  | (evs, Raise e) => (evs, Raise e)
  | (evs, Ok tmp) =>
      if dim self =? 0 then (evs ++ [Display tmp], Raise ValueError)
      else (evs ++ [Display tmp], Ok tt)
  end.

(** ** play *)

(** The text of the closing message, without its line ends. *)
Definition over_msg : string := "The Game of Life is Over".

(** [self.iterations and generations > self.iterations] *)
Definition limit_exceeded (self : GameOfLife) (generations : Z) : bool :=
  match iterations self with
  | None => false
  | Some n => if n =? 0 then false else generations >? n
  end.

(** The [while True] loop of [play]; one unit of fuel per turn. *)
Fixpoint play_loop (fuel : nat) (self : GameOfLife) (generations : Z) : run :=
  match fuel with
  | O => ([], None)
  | S fuel' =>
      match display self with
      | (evs, Raise e) => (evs, Some (Uncaught e))
      | (evs, Ok _) =>
          let generations := generations + 1 in
          if limit_exceeded self generations
          then (evs ++ [Sleep 1; Print over_msg], Some (Exit 0))
          else
            match step self with
            | Raise e => (evs ++ [Sleep 1], Some (Uncaught e))
            | Ok self => after (evs ++ [Sleep 1]) (play_loop fuel' self generations)
            end
      end
  end.

Definition play (env : Env) (fuel : nat) (self : GameOfLife) : run :=
  match initialize env fuel self with
  | None => ([], None)
  | Some (Raise e) => ([], Some (Uncaught e))
  | Some (Ok self) => play_loop fuel self 0
  end.

(** ** The constructor and the main program

    [math.sqrt] works on doubles; for the sizes a terminal can show the
    double square root of a perfect square is exact and [int] of any square
    root is the integer square root, which is how both are modelled. *)

Definition init (env : Env) (fuel : nat) (opt_size : Z) (opt_iter : option Z)
  (opt_god : bool) : run :=
  play env fuel (mkGame [] [] opt_size (Z.sqrt opt_size) opt_iter opt_god).

(** The template of the message about the size, without its line end. *)
Definition no_sqrt_msg : string :=
  "specified size {0} does not have an integer square root. Please choose again".

(** [x != int(x)] for [x = math.sqrt(size)] *)
Definition sqrt_not_integer (n : Z) : bool :=
  negb (Z.sqrt n * Z.sqrt n =? n).

(** The part of the main program after the options are parsed. *)
Definition main (env : Env) (fuel : nat) (opt_size : Z) (opt_iter : option Z)
  (opt_god : bool) : run :=
  if opt_size <? 0 then ([], Some (Uncaught ValueError))
  else
    let warned :=
      if sqrt_not_integer opt_size then [StderrFormat no_sqrt_msg opt_size]
      else [] in
    after warned (init env fuel opt_size opt_iter opt_god).

(** ** Shapes of the state *)

(** The grids of the data model: [dim] rows of [dim] cells. *)
Definition square (self : GameOfLife) : Prop :=
  1 <= dim self /\ size self = dim self * dim self /\
  len (grid self) = size self.

(** What [count_neighbors] needs to stay inside the list: whole rows only,
    and at least [size] cells. *)
Definition well_shaped (self : GameOfLife) : Prop :=
  0 < dim self /\ size self mod dim self = 0 /\
  len (grid self) mod dim self = 0 /\ size self <= len (grid self).

Definition in_range (n : Z) (i : Z) : Prop := 0 <= i < n.

(** ** What [count_neighbors] computes, without the effects

    [get g i] is the cell at a position that is known to be inside. *)

Definition get (g : list bool) (i : Z) : bool := nth (Z.to_nat i) g false.

Definition edge_val (g : list bool) (D q i : Z) : bool :=
  if q mod D =? 0 then false else get g i.

Definition edge_reads (D q i : Z) : list Z :=
  if q mod D =? 0 then [] else [i].

Definition row_val (g : list bool) (D p : Z) : list bool :=
  [edge_val g D p (p - 1); get g p; edge_val g D (p + 1) (p + 1)].

Definition row_reads (D p : Z) : list Z :=
  edge_reads D p (p - 1) ++ [p] ++ edge_reads D (p + 1) (p + 1).

Definition neighbors_val (g : list bool) (D S idx : Z) : list bool :=
  (if idx - D <? 0 then [false; false; false] else row_val g D (idx - D))
  ++ [edge_val g D idx (idx - 1); edge_val g D (idx + 1) (idx + 1)]
  ++ (if idx + D >=? S then [false; false; false] else row_val g D (idx + D)).

Definition neighbors_reads (D S idx : Z) : list Z :=
  (if idx - D <? 0 then [] else row_reads D (idx - D))
  ++ edge_reads D idx (idx - 1) ++ edge_reads D (idx + 1) (idx + 1)
  ++ (if idx + D >=? S then [] else row_reads D (idx + D)).

(** The rules as [assess_neighbors] applies them to a count. *)
Definition rules (alive : bool) (c : Z) : bool :=
  if negb (in_2_3 c) then false
  else if alive then in_2_3 c else c =? 3.

Definition assess_val (g : list bool) (D S idx : Z) : bool :=
  rules (get g idx) (count_True (neighbors_val g D S idx)).

Definition next_grid (g : list bool) (D S : Z) : list bool :=
  map (assess_val g D S) (xrange (len g)).

(** The [k]-th generation after [self]. *)
Fixpoint generation (k : nat) (self : GameOfLife) : GameOfLife :=
  match k with
  | O => self
  | S k' =>
      let g := next_grid (grid self) (dim self) (size self) in
      generation k' (set_grid (set_res self g) g)
  end.

(** ** The grid as rows and columns (section 3 and 4.1 of the design)

    Index [i] is row [i / dim], column [i mod dim]; a position outside the
    square is dead. *)

Definition on_grid (D r c : Z) : bool :=
  (0 <=? r) && (r <? D) && (0 <=? c) && (c <? D).

Definition cell (g : list bool) (D r c : Z) : bool :=
  if on_grid D r c then get g (r * D + c) else false.

(** The eight positions around row [r], column [c], in the order above,
    beside, below. *)
Definition around {A : Type} (f : Z -> Z -> A) (r c : Z) : list A :=
  [f (r - 1) (c - 1); f (r - 1) c; f (r - 1) (c + 1);
   f r (c - 1); f r (c + 1);
   f (r + 1) (c - 1); f (r + 1) c; f (r + 1) (c + 1)].

(** [neighborCount] of the design: the alive cells among the positions
    around [idx] that are on the grid. *)
Definition neighborCount (g : list bool) (D idx : Z) : Z :=
  count_True (around (cell g D) (idx / D) (idx mod D)).

(** [nextState] of the design, from the four rules as it words them. *)
Definition nextState (alive : bool) (count : Z) : bool :=
  if negb ((count =? 2) || (count =? 3)) then false
  else if alive && ((count =? 2) || (count =? 3)) then true
  else if negb alive && (count =? 3) then true
  else false.

(** A square grid given by a picture [f] of rows and columns. *)
Definition plane (D : Z) (f : Z -> Z -> bool) : list bool :=
  map (fun k => f (k / D) (k mod D)) (xrange (D * D)).

(** One generation on pictures: outside the square everything is dead. *)
Definition life (D : Z) (f : Z -> Z -> bool) (r c : Z) : bool :=
  rules (f r c)
        (count_True (around (fun a b => on_grid D a b && f a b) r c)).

(** The 2x2 block with its upper left cell at row [r0], column [c0]. *)
Definition block (r0 c0 : Z) (r c : Z) : bool :=
  (r0 <=? r) && (r <=? r0 + 1) && (c0 <=? c) && (c <=? c0 + 1).

(** The blinker centred at row [r0], column [c0], lying and standing. *)
Definition blinker_h (r0 c0 : Z) (r c : Z) : bool :=
  (r =? r0) && (c0 - 1 <=? c) && (c <=? c0 + 1).

Definition blinker_v (r0 c0 : Z) (r c : Z) : bool :=
  (c =? c0) && (r0 - 1 <=? r) && (r <=? r0 + 1).

(** The frames a run shows when nothing goes wrong: each generation, then
    a second of sleep. *)
Definition frames (n : nat) (self : GameOfLife) : list event :=
  flat_map
    (fun k => [Display (firstn (Z.to_nat (size self)) (grid (generation k self)));
               Sleep 1])
    (seq 0 n).

(** [c = self.count_neighbors(idx).count(True)] *)
Definition live_neighbors (self : GameOfLife) (idx : Z) : result Z :=
  match value (count_neighbors self idx) with
  | Ok ns => Ok (count_True ns)
  | Raise e => Raise e
  end.

(** ** Concrete grids and worlds *)

(** The 3x3 grid with every cell alive. *)
Definition full_3x3 (r : list bool) (it : option Z) (gd : bool) : GameOfLife :=
  mkGame (repeat true 9) r 9 3 it gd.

Definition corners_3x3 : list bool :=
  [true; false; true; false; false; false; true; false; true].

(** A random source that alternates between 0.75 and 0.25. *)
Definition coin (k : nat) : Q := if Nat.even k then 3 # 4 else 1 # 4.

(** A world without the file [./gods_word]. *)
Definition no_file : Env := mkEnv None coin.

(** A world where the file holds the four bytes [abcd]. *)
Definition abcd_file (rnd : nat -> Q) : Env :=
  mkEnv (Some (list_ascii_of_string "abcd")) rnd.

(** A square picture as an object, before its first sweep. *)
Definition board (D : Z) (f : Z -> Z -> bool) : GameOfLife :=
  mkGame (plane D f) [] (D * D) D None false.


(** ** What a run shows, and the cells [initialize] appends *)

(** The cells [display] shows: the first [size] of the grid. *)
Definition shown (self : GameOfLife) : list bool :=
  firstn (Z.to_nat (size self)) (grid self).

(** The cells the random loop of [initialize] appends for a size [n]. *)
Definition random_cells (env : Env) (n : Z) : list bool :=
  map (fun i => Qle_bool (1 # 2) (random env (Z.to_nat i))) (xrange n).

(** The parities of the first [n] bytes of the words repeated without end. *)
Definition word_cells (words : list ascii) (n : Z) : list bool :=
  map (fun i => odd_ord (nth (Z.to_nat (i mod len words)) words Ascii.zero))
      (xrange n).

(** [w] is [words] written a whole number of times, at least once. *)
Definition periodic (words w : list ascii) : Prop :=
  0 < len w /\ len w mod len words = 0 /\
  forall i, 0 <= i < len w ->
            nth (Z.to_nat i) w Ascii.zero =
            nth (Z.to_nat (i mod len words)) words Ascii.zero.

(** The limits with which the first turn of the loop goes on to sweep. *)
Definition limit_allows_sweep (it : option Z) : Prop :=
  match it with
  | None => True
  | Some n => 0 <= n
  end.

(** The limits that [self.iterations and ...] takes for no limit. *)
Definition unlimited (it : option Z) : Prop := it = None \/ it = Some 0.

(** ** The options of the script

    [getopt.getopt] and [int] belong to Python: the list of pairs that
    [getopt] returns ([None] where it raises) and the function [int]
    ([None] where it raises [ValueError]) are taken as given. *)

Record Opts : Type := mkOpts {
  opt_size : Z;
  opt_iter : option Z;
  opt_god : bool
}.

(** [opts = {'size': 1024, 'iter': None, 'god': False}] *)
Definition default_opts : Opts := mkOpts 1024 None false.

(** How the loop over the options ends: at the end of the list, in
    [usage()] after [-h], or in an exception of [int]. *)
Inductive parsed : Type :=
| Parsed (opts : Opts)
| Help
| Failed.

(** [for o, a in optlist:] with its four [if]s in their order. *)
Fixpoint read_opts (int : string -> option Z) (optlist : list (string * string))
  (opts : Opts) : parsed :=
  match optlist with
  | [] => Parsed opts
  | (o, a) :: optlist' =>
      match (if String.eqb o "-s"
             then option_map (fun v => mkOpts v (opt_iter opts) (opt_god opts))
                             (int a)
             else Some opts) with
      | None => Failed
      | Some opts =>
          match (if String.eqb o "-n"
                 then option_map
                        (fun v => mkOpts (opt_size opts) (Some v) (opt_god opts))
                        (int a)
                 else Some opts) with
          | None => Failed
          | Some opts =>
              let opts :=
                if String.eqb o "-g"
                then mkOpts (opt_size opts) (opt_iter opts) true
                else opts in
              if String.eqb o "-h" then Help
              else read_opts int optlist' opts
          end
      end
  end.

(** What the script does around the game: the title printed for [-h], the
    usage line and the text of an exception on the error stream. *)
Inductive script_event : Type :=
| Game (e : event)
| PrintTitle
| WriteUsage
| WriteError.

(** The script from the [try] on; [usage()] exits with status 1. *)
Definition script (int : string -> option Z)
  (getopt : option (list (string * string))) (env : Env) (fuel : nat)
  : list script_event * option status :=
  match getopt with
  | None => ([WriteError; WriteUsage], Some (Exit 1))
  | Some optlist =>
      match read_opts int optlist default_opts with
      | Failed => ([WriteError; WriteUsage], Some (Exit 1))
      | Help => ([PrintTitle; WriteUsage], Some (Exit 1))
      | Parsed opts =>
          let r := main env fuel (opt_size opts) (opt_iter opts) (opt_god opts) in
          (map Game (fst r), snd r)
      end
  end.

(** The two runs of the script that end in [usage()]. *)
Definition refused (r : list script_event * option status) : Prop :=
  r = ([WriteError; WriteUsage], Some (Exit 1)) \/
  r = ([PrintTitle; WriteUsage], Some (Exit 1)).

(** An option [-s] or [-n] whose argument [int] does not take. *)
Definition bad_number (int : string -> option Z) (oa : string * string) : Prop :=
  (fst oa = "-s"%string \/ fst oa = "-n"%string) /\ int (snd oa) = None.

(** ** More concrete grids and worlds *)

(** Ten live cells with [dim] 3: three rows and one cell more. *)
Definition ragged_10 : GameOfLife := mkGame (repeat true 10) [] 10 3 None false.

(** Nine dead cells. *)
Definition dead_3x3 : GameOfLife := mkGame (repeat false 9) [] 9 3 None false.

(** A world where the file [./gods_word] is empty. *)
Definition empty_file : Env := mkEnv (Some []) coin.

(** ** Grids of whole rows *)

(** Row [r], column [c] lies on the [R] rows of [D] cells. *)
Definition on_rows (R D r c : Z) : bool :=
  (0 <=? r) && (r <? R) && (0 <=? c) && (c <? D).

(** The cell at row [r], column [c] of [R] rows of [D] cells, dead outside. *)
Definition cell_rows (g : list bool) (R D r c : Z) : bool :=
  if on_rows R D r c then get g (r * D + c) else false.

(** An event that, if it is a frame, shows exactly [n] cells. *)
Definition shows_cells (ev : event) (n : Z) : Prop :=
  match ev with
  | Display tmp => len tmp = n
  | _ => True
  end.

(** Eight live cells with [dim] 2: four rows of two. *)
Definition rows_4x2 : GameOfLife := mkGame (repeat true 8) [] 8 2 None false.

(** * Proofs *)

(** ** Arithmetic of rows and columns *)

Lemma mod_nonzero_pos (D p : Z) :
  0 < D -> 0 <= p -> p mod D <> 0 -> 1 <= p.
Proof.
  intros HD Hp Hm.
  destruct (Z.eq_dec p 0) as [-> | Hne]; [| lia].
  rewrite Z.mod_0_l in Hm by lia. congruence.
Qed.

Lemma succ_below_multiple (D n i : Z) :
  n mod D = 0 -> i < n -> (i + 1) mod D <> 0 -> i + 1 < n.
Proof.
  intros Hn Hi Hm.
  destruct (Z.eq_dec (i + 1) n) as [E | Hne]; [| lia].
  rewrite E in Hm. contradiction.
Qed.

Lemma row_col_mod (D r c : Z) :
  0 <= c < D -> (r * D + c) mod D = c.
Proof.
  intros Hc. rewrite Z.add_comm, Z.mod_add by lia. apply Z.mod_small; lia.
Qed.

Lemma row_col_div (D r c : Z) :
  0 <= c < D -> (r * D + c) / D = r.
Proof.
  intros Hc. rewrite Z.add_comm, Z.div_add by lia.
  rewrite Z.div_small; lia.
Qed.

Lemma row_col_bound (D r c : Z) :
  0 <= r < D -> 0 <= c < D -> 0 <= r * D + c < D * D.
Proof. intros Hr Hc. nia. Qed.

Lemma index_row_col (D i : Z) :
  0 < D -> 0 <= i < D * D ->
  0 <= i / D < D /\ 0 <= i mod D < D /\ i = (i / D) * D + i mod D.
Proof.
  intros HD Hi.
  pose proof (Z.mod_pos_bound i D HD) as Hm.
  pose proof (Z.div_mod i D ltac:(lia)) as Hq.
  split; [| split; [exact Hm | lia]].
  split.
  - apply Z.div_pos; lia.
  - apply Z.div_lt_upper_bound; lia.
Qed.

(** ** Reading the grid *)

Lemma index_nth {A : Type} (l : list A) (d : A) (i : Z) :
  in_range (len l) i -> index l i = Ok (nth (Z.to_nat i) l d).
Proof.
  unfold in_range, index, len. intros [H0 H1].
  destruct (Z.ltb_spec i 0) as [Hneg | _]; [lia |].
  destruct (Z.leb_spec 0 i) as [_ | Hneg]; [| lia].
  destruct (Z.ltb_spec i (Z.of_nat (List.length l))) as [_ | Hge]; [| lia].
  cbn [andb].
  rewrite (nth_error_nth' l d) by lia. reflexivity.
Qed.

Lemma index_get (g : list bool) (i : Z) :
  in_range (len g) i -> index g i = Ok (get g i).
Proof. apply index_nth. Qed.

Lemma grid_at_eq (self : GameOfLife) (i : Z) :
  in_range (len (grid self)) i ->
  grid_at self i = (Ok (get (grid self) i), [i]).
Proof. intros Hi. unfold grid_at. rewrite index_get by exact Hi. reflexivity. Qed.

Lemma False_if_edge_eq (self : GameOfLife) (q i : Z) :
  0 < dim self ->
  (q mod dim self <> 0 -> in_range (len (grid self)) i) ->
  False_if_edge self q i =
  (Ok (edge_val (grid self) (dim self) q i), edge_reads (dim self) q i).
Proof.
  intros HD Hi. unfold False_if_edge, edge_val, edge_reads, modulo.
  destruct (Z.eqb_spec (dim self) 0) as [E | _]; [lia |].
  cbn [lift bind].
  destruct (Z.eqb_spec (q mod dim self) 0) as [E | Hne].
  - reflexivity.
  - rewrite grid_at_eq by (apply Hi; exact Hne). reflexivity.
Qed.

(** ** count_neighbors never leaves a well shaped grid *)

Ltac inside :=
  unfold in_range in *;
  match goal with
  | |- _ mod _ <> 0 -> _ => intros ?; inside
  | H : (?p + 1) mod ?D <> 0 |- 0 <= ?p + 1 < _ =>
      let L := fresh in
      (assert (L : p + 1 < len _) by
         (eapply succ_below_multiple; [eassumption | lia | exact H]); lia)
      || lia
  | H : ?p mod ?D <> 0 |- 0 <= ?p - 1 < _ =>
      let L := fresh in
      assert (L : 1 <= p) by (apply (mod_nonzero_pos D); [lia | lia | exact H]);
      lia
  | |- _ => lia
  end.

Lemma count_neighbors_eq (self : GameOfLife) (idx : Z) :
  well_shaped self -> in_range (len (grid self)) idx ->
  count_neighbors self idx =
  (Ok (neighbors_val (grid self) (dim self) (size self) idx),
   neighbors_reads (dim self) (size self) idx).
Proof.
  intros (HD & HS & HL & HSL) Hi.
  unfold count_neighbors, neighbors_val, neighbors_reads, row_val, row_reads.
  destruct (Z.ltb_spec (idx - dim self) 0) as [Hup | Hup];
    destruct (idx + dim self >=? size self) eqn:Hdown.
  all: try (apply Z.geb_le in Hdown).
  all: try (rewrite Z.geb_leb in Hdown; apply Z.leb_gt in Hdown).
  all: repeat (first
    [ rewrite False_if_edge_eq by (try exact HD; inside)
    | rewrite grid_at_eq by inside ];
    cbn [bind ret app]).
  all: rewrite ?app_nil_r, <- ?app_assoc; reflexivity.
Qed.

Lemma neighbors_reads_in_range (D S L idx : Z) :
  0 < D -> L mod D = 0 -> S <= L -> in_range L idx ->
  Forall (in_range L) (neighbors_reads D S idx).
Proof.
  intros HD HL HSL Hi.
  unfold neighbors_reads, row_reads, edge_reads.
  destruct (Z.ltb_spec (idx - D) 0) as [Hup | Hup];
    destruct (idx + D >=? S) eqn:Hdown.
  all: try (apply Z.geb_le in Hdown).
  all: try (rewrite Z.geb_leb in Hdown; apply Z.leb_gt in Hdown).
  all: repeat match goal with
         | |- context [?q mod ?d =? 0] => destruct (Z.eqb_spec (q mod d) 0)
         end.
  all: cbn [app]; repeat (apply Forall_cons || apply Forall_nil).
  all: unfold in_range in *;
    try match goal with
      | H : (?p + 1) mod ?d <> 0 |- 0 <= ?p + 1 < ?n =>
          assert (p + 1 < n)
            by (apply (succ_below_multiple d); [exact HL | lia | exact H])
      | H : ?p mod ?d <> 0 |- 0 <= ?p - 1 < _ =>
          assert (1 <= p) by (apply (mod_nonzero_pos d); [lia | lia | exact H])
      end; lia.
Qed.

Lemma neighbors_val_length (g : list bool) (D S idx : Z) :
  List.length (neighbors_val g D S idx) = 8%nat.
Proof.
  unfold neighbors_val, row_val.
  destruct (idx - D <? 0); destruct (idx + D >=? S); reflexivity.
Qed.

Lemma count_True_bound (l : list bool) : 0 <= count_True l <= len l.
Proof.
  unfold count_True, len.
  pose proof (count_occ_bound bool_dec true l). lia.
Qed.

(** ** Rows and columns *)

Lemma edge_left (g : list bool) (D r c : Z) :
  0 <= r < D -> 0 <= c < D ->
  edge_val g D (r * D + c) (r * D + c - 1) = cell g D r (c - 1).
Proof.
  intros Hr Hc. unfold edge_val, cell, on_grid.
  rewrite row_col_mod by lia.
  destruct (Z.eqb_spec c 0) as [-> | Hne].
  - rewrite andb_false_r. reflexivity.
  - destruct (Z.leb_spec 0 r), (Z.ltb_spec r D), (Z.leb_spec 0 (c - 1)),
      (Z.ltb_spec (c - 1) D); try lia.
    cbn [andb]. f_equal. lia.
Qed.

Lemma edge_right (g : list bool) (D r c : Z) :
  0 <= r < D -> 0 <= c < D ->
  edge_val g D (r * D + c + 1) (r * D + c + 1) = cell g D r (c + 1).
Proof.
  intros Hr Hc. unfold edge_val, cell, on_grid.
  destruct (Z.eq_dec (c + 1) D) as [E | Hne].
  - replace (r * D + c + 1) with (0 + (r + 1) * D) by lia.
    rewrite Z.mod_add, Z.mod_0_l by lia. cbn [Z.eqb].
    destruct (Z.ltb_spec (c + 1) D); [lia |].
    rewrite andb_false_r. reflexivity.
  - replace (r * D + c + 1) with (r * D + (c + 1)) by lia.
    rewrite row_col_mod by lia.
    destruct (Z.eqb_spec (c + 1) 0); [lia |].
    destruct (Z.leb_spec 0 r), (Z.ltb_spec r D), (Z.leb_spec 0 (c + 1)),
      (Z.ltb_spec (c + 1) D); try lia.
    reflexivity.
Qed.

Lemma cell_inside (g : list bool) (D r c : Z) :
  0 <= r < D -> 0 <= c < D -> cell g D r c = get g (r * D + c).
Proof.
  intros Hr Hc. unfold cell, on_grid.
  destruct (Z.leb_spec 0 r), (Z.ltb_spec r D), (Z.leb_spec 0 c),
    (Z.ltb_spec c D); try lia.
  reflexivity.
Qed.

Lemma cell_outside_row (g : list bool) (D r c : Z) :
  r < 0 \/ D <= r -> cell g D r c = false.
Proof.
  intros Hr. unfold cell, on_grid.
  destruct (Z.leb_spec 0 r), (Z.ltb_spec r D); try lia; reflexivity.
Qed.

Lemma row_val_cells (g : list bool) (D r c : Z) :
  0 <= r < D -> 0 <= c < D ->
  row_val g D (r * D + c) =
  [cell g D r (c - 1); cell g D r c; cell g D r (c + 1)].
Proof.
  intros Hr Hc. unfold row_val.
  rewrite edge_left, edge_right, (cell_inside g D r c) by assumption.
  reflexivity.
Qed.

Lemma neighbors_val_around (g : list bool) (D r c : Z) :
  0 <= r < D -> 0 <= c < D ->
  neighbors_val g D (D * D) (r * D + c) = around (cell g D) r c.
Proof.
  intros Hr Hc. unfold neighbors_val, around.
  rewrite edge_left, edge_right by assumption.
  replace (r * D + c - D) with ((r - 1) * D + c) by lia.
  replace (r * D + c + D) with ((r + 1) * D + c) by lia.
  destruct (Z.ltb_spec ((r - 1) * D + c) 0) as [Hup | Hup];
    destruct (Z.geb_spec ((r + 1) * D + c) (D * D)) as [Hdown | Hdown].
  all: try (assert (r = 0) by nia).
  all: try (assert (r + 1 = D) by nia).
  all: try (assert (1 <= r) by nia).
  all: try (assert (r + 1 < D) by nia).
  all: rewrite ?row_val_cells by lia.
  all: rewrite ?(cell_outside_row g D (r - 1)) by lia.
  all: rewrite ?(cell_outside_row g D (r + 1)) by lia.
  all: reflexivity.
Qed.

(** ** assess_neighbors, sweep and step on a well shaped grid *)

Lemma value_bind {A B : Type} (m : M A) (f : A -> M B) :
  value (bind m f) =
  match value m with
  | Ok a => value (f a)
  | Raise e => Raise e
  end.
Proof.
  destruct m as [[a | e] l]; cbn; [| reflexivity].
  destruct (f a) as [r l']. reflexivity.
Qed.

Lemma assess_neighbors_eq (self : GameOfLife) (idx : Z) :
  well_shaped self -> in_range (len (grid self)) idx ->
  value (assess_neighbors self idx) =
  Ok (assess_val (grid self) (dim self) (size self) idx).
Proof.
  intros Hw Hi. unfold assess_neighbors, assess_val, rules.
  rewrite value_bind, count_neighbors_eq by assumption. cbn [value fst].
  destruct (negb (in_2_3 _)); [reflexivity |].
  rewrite value_bind, grid_at_eq by assumption. cbn [value fst].
  destruct (get (grid self) idx); reflexivity.
Qed.

Lemma well_shaped_set_res (self : GameOfLife) (r : list bool) :
  well_shaped self -> well_shaped (set_res self r).
Proof. intros Hw. exact Hw. Qed.

Lemma sweep_loop_eq (todo : list Z) : forall self : GameOfLife,
  well_shaped self -> Forall (in_range (len (grid self))) todo ->
  value (sweep_loop self todo) =
  Ok (set_res self
        (res self ++ map (assess_val (grid self) (dim self) (size self)) todo)).
Proof.
  induction todo as [| i todo IH]; intros self Hw Hall.
  - cbn. rewrite app_nil_r. destruct self; reflexivity.
  - inversion Hall as [| ? ? Hi Hrest]; subst.
    cbn [sweep_loop]. rewrite value_bind, assess_neighbors_eq by assumption.
    rewrite IH by (try apply well_shaped_set_res; assumption).
    cbn [map]. unfold set_res; cbn [grid res size dim iterations god].
    rewrite <- app_assoc. reflexivity.
Qed.

Lemma xrange_in_range (n : Z) : Forall (in_range n) (xrange n).
Proof.
  unfold xrange. apply Forall_forall. intros i Hi.
  apply in_map_iff in Hi. destruct Hi as (k & <- & Hk).
  apply in_seq in Hk. unfold in_range. lia.
Qed.

Lemma xrange_length (n : Z) : List.length (xrange n) = Z.to_nat n.
Proof. unfold xrange. rewrite length_map, length_seq. reflexivity. Qed.

Lemma sweep_eq (self : GameOfLife) :
  well_shaped self ->
  value (sweep self) =
  Ok (set_res self (next_grid (grid self) (dim self) (size self))).
Proof.
  intros Hw. unfold sweep.
  rewrite sweep_loop_eq by (try apply xrange_in_range; exact Hw).
  reflexivity.
Qed.

Lemma step_eq (self : GameOfLife) :
  well_shaped self ->
  step self =
  Ok (generation 1 self).
Proof.
  intros Hw. unfold step. rewrite sweep_eq by exact Hw. reflexivity.
Qed.

Lemma next_grid_length (g : list bool) (D S : Z) :
  List.length (next_grid g D S) = List.length g.
Proof.
  unfold next_grid. rewrite length_map, xrange_length. unfold len. lia.
Qed.

Lemma generation_1_shaped (self : GameOfLife) :
  well_shaped self -> well_shaped (generation 1 self).
Proof.
  unfold well_shaped. cbn [generation set_grid set_res grid size dim].
  unfold len. rewrite next_grid_length. trivial.
Qed.

Lemma generation_succ (k : nat) (self : GameOfLife) :
  generation (S k) self = generation k (generation 1 self).
Proof. reflexivity. Qed.

(** ** display on a well shaped grid *)

Lemma firstn_as_map (g : list bool) : forall n : nat,
  (n <= List.length g)%nat ->
  map (fun i => get g (Z.of_nat i)) (seq 0 n) = firstn n g.
Proof.
  unfold get. induction g as [| b g IH]; intros n Hn.
  - cbn in Hn. replace n with O by lia. reflexivity.
  - destruct n as [| n]; [reflexivity |].
    cbn [seq map firstn]. rewrite <- seq_shift, map_map.
    f_equal. cbn in Hn. rewrite <- IH by lia.
    apply map_ext. intros i. rewrite !Nat2Z.id. reflexivity.
Qed.

Lemma display_loop_eq (self : GameOfLife) (todo : list Z) :
  forall tmp : list bool,
  Forall (in_range (len (grid self))) todo ->
  display_loop self tmp todo = ([], Ok (tmp ++ map (get (grid self)) todo)).
Proof.
  induction todo as [| i todo IH]; intros tmp Hall.
  - cbn. rewrite app_nil_r. reflexivity.
  - inversion Hall as [| ? ? Hi Hrest]; subst.
    cbn [display_loop]. rewrite index_get by exact Hi.
    rewrite IH by exact Hrest. cbn [map]. rewrite <- app_assoc. reflexivity.
Qed.

Lemma display_eq (self : GameOfLife) :
  well_shaped self ->
  display self =
  ([Display (firstn (Z.to_nat (size self)) (grid self))], Ok tt).
Proof.
  intros (HD & HS & HL & HSL). unfold display.
  rewrite display_loop_eq.
  - destruct (Z.eqb_spec (dim self) 0); [lia |].
    cbn [app]. unfold xrange. rewrite map_map, firstn_as_map; [reflexivity |].
    unfold len in HSL. lia.
  - eapply Forall_impl; [| apply xrange_in_range].
    unfold in_range. intros i Hi. lia.
Qed.

(** ** The loop of play *)

Lemma frames_succ (n : nat) (self : GameOfLife) :
  frames (S n) self =
  [Display (firstn (Z.to_nat (size self)) (grid self)); Sleep 1]
  ++ frames n (generation 1 self).
Proof.
  unfold frames. cbn [seq flat_map app].
  change (generation 0 self) with self. do 2 apply f_equal.
  rewrite <- seq_shift, !flat_map_concat_map, map_map. reflexivity.
Qed.

Lemma play_loop_exits (n : nat) : forall (self : GameOfLife) (gen N : Z),
  well_shaped self -> iterations self = Some N -> N <> 0 ->
  gen + Z.of_nat n = N ->
  play_loop (S n) self gen =
  (frames (S n) self ++ [Print over_msg], Some (Exit 0)).
Proof.
  induction n as [| n IH]; intros self gen N Hw Hit HN Hgen.
  - cbn [play_loop]. rewrite display_eq by exact Hw.
    unfold limit_exceeded. rewrite Hit.
    destruct (Z.eqb_spec N 0); [contradiction |].
    destruct (Z.gtb_spec (gen + 1) N); [| lia].
    reflexivity.
  - change (play_loop (S (S n)) self gen) with
      (match display self with
       | (evs, Raise e) => (evs, Some (Uncaught e))
       | (evs, Ok _) =>
           if limit_exceeded self (gen + 1)
           then (evs ++ [Sleep 1; Print over_msg], Some (Exit 0))
           else
             match step self with
             | Raise e => (evs ++ [Sleep 1], Some (Uncaught e))
             | Ok self' =>
                 after (evs ++ [Sleep 1]) (play_loop (S n) self' (gen + 1))
             end
       end).
    rewrite display_eq by exact Hw.
    unfold limit_exceeded. rewrite Hit.
    destruct (Z.eqb_spec N 0); [contradiction |].
    destruct (Z.gtb_spec (gen + 1) N); [lia |].
    rewrite step_eq by exact Hw.
    rewrite (IH (generation 1 self) (gen + 1) N);
      [| apply generation_1_shaped; exact Hw | exact Hit | exact HN | lia].
    rewrite (frames_succ (S n)). unfold after. cbn [fst snd app].
    reflexivity.
Qed.

Lemma play_loop_running (fuel : nat) : forall (self : GameOfLife) (gen N : Z),
  well_shaped self -> iterations self = Some N -> N <> 0 ->
  gen + Z.of_nat fuel <= N ->
  snd (play_loop fuel self gen) = None.
Proof.
  induction fuel as [| fuel IH]; intros self gen N Hw Hit HN Hgen;
    [reflexivity |].
  cbn [play_loop]. rewrite display_eq by exact Hw.
  unfold limit_exceeded. rewrite Hit.
  destruct (Z.eqb_spec N 0); [contradiction |].
  destruct (Z.gtb_spec (gen + 1) N); [lia |].
  rewrite step_eq by exact Hw. unfold after. cbn [snd].
  apply (IH _ _ N); [apply generation_1_shaped; exact Hw | exact Hit | exact HN | lia].
Qed.

(** ** Square grids as pictures *)

Lemma square_well_shaped (self : GameOfLife) :
  square self -> well_shaped self.
Proof.
  intros (HD & HS & HL). unfold well_shaped.
  rewrite HL, HS, Z.mod_mul by lia. repeat split; lia.
Qed.

Lemma get_map_xrange (F : Z -> bool) (n i : Z) :
  in_range n i -> get (map F (xrange n)) i = F i.
Proof.
  unfold in_range, get, xrange. intros Hi.
  rewrite map_map.
  rewrite (nth_indep _ false (F (Z.of_nat 0)))
    by (rewrite length_map, length_seq; lia).
  rewrite (map_nth (fun k => F (Z.of_nat k))), seq_nth by lia.
  f_equal. lia.
Qed.

Lemma plane_length (D : Z) (f : Z -> Z -> bool) :
  0 < D -> len (plane D f) = D * D.
Proof.
  intros HD. unfold len, plane. rewrite length_map, xrange_length. nia.
Qed.

Lemma cell_plane (D : Z) (f : Z -> Z -> bool) (r c : Z) :
  0 < D -> cell (plane D f) D r c = on_grid D r c && f r c.
Proof.
  intros HD. unfold cell. destruct (on_grid D r c) eqn:Hon; [| reflexivity].
  unfold on_grid in Hon.
  apply andb_prop in Hon; destruct Hon as [Hon Hc1].
  apply andb_prop in Hon; destruct Hon as [Hon Hc0].
  apply andb_prop in Hon; destruct Hon as [Hr0 Hr1].
  apply Z.leb_le in Hr0, Hc0. apply Z.ltb_lt in Hr1, Hc1.
  unfold plane. rewrite get_map_xrange by (apply row_col_bound; lia).
  rewrite row_col_div, row_col_mod by lia. reflexivity.
Qed.

Lemma next_grid_plane (D : Z) (f : Z -> Z -> bool) :
  0 < D -> next_grid (plane D f) D (D * D) = plane D (life D f).
Proof.
  intros HD. unfold next_grid. rewrite plane_length by exact HD.
  unfold plane at 2. apply map_ext_in. intros i Hi.
  pose proof (xrange_in_range (D * D)) as Hall.
  rewrite Forall_forall in Hall. specialize (Hall i Hi). unfold in_range in Hall.
  destruct (index_row_col D i HD Hall) as (Hr & Hc & E).
  unfold assess_val, life.
  replace (neighbors_val (plane D f) D (D * D) i)
    with (around (cell (plane D f) D) (i / D) (i mod D))
    by (symmetry; rewrite E at 1; apply neighbors_val_around; assumption).
  unfold plane at 1. rewrite get_map_xrange by exact Hall.
  unfold around. rewrite !cell_plane by exact HD. reflexivity.
Qed.

Lemma plane_ext (D : Z) (f f' : Z -> Z -> bool) :
  0 < D ->
  (forall r c, 0 <= r < D -> 0 <= c < D -> f r c = f' r c) ->
  plane D f = plane D f'.
Proof.
  intros HD Hext. unfold plane. apply map_ext_in. intros i Hi.
  pose proof (xrange_in_range (D * D)) as Hall.
  rewrite Forall_forall in Hall. specialize (Hall i Hi). unfold in_range in Hall.
  destruct (index_row_col D i HD Hall) as (Hr & Hc & _).
  apply Hext; assumption.
Qed.

Lemma step_plane (self : GameOfLife) (f : Z -> Z -> bool) :
  square self -> grid self = plane (dim self) f ->
  exists self', step self = Ok self' /\
                grid self' = plane (dim self) (life (dim self) f) /\
                square self' /\ dim self' = dim self.
Proof.
  intros Hsq Hg. pose proof Hsq as (HD & HS & HL).
  exists (generation 1 self). split; [| split; [| split]].
  - apply step_eq, square_well_shaped, Hsq.
  - cbn. rewrite HS, Hg. apply next_grid_plane. lia.
  - unfold square. cbn. unfold len in *. rewrite next_grid_length. auto.
  - reflexivity.
Qed.

(** ** Pictures that are still or oscillate *)

(** Decide every comparison of coordinates in the goal, dropping the cases
    that contradict what is known, then evaluate. *)
Ltac decide_coordinates :=
  repeat match goal with
    | |- context [?a <=? ?b] => destruct (Z.leb_spec a b); try lia
    | |- context [?a <? ?b] => destruct (Z.ltb_spec a b); try lia
    | |- context [Z.eqb ?a ?b] =>
        lazymatch a with
        | context [count_occ] => fail
        | _ => destruct (Z.eqb_spec a b); try lia
        end
    end;
  reflexivity.

Lemma life_block (D r0 c0 r c : Z) :
  1 <= r0 -> r0 + 2 < D -> 1 <= c0 -> c0 + 2 < D ->
  0 <= r < D -> 0 <= c < D ->
  life D (block r0 c0) r c = block r0 c0 r c.
Proof.
  intros Hr0 Hr1 Hc0 Hc1 Hr Hc.
  unfold life, around, on_grid, block, rules, in_2_3, count_True.
  decide_coordinates.
Qed.

Lemma life_blinker_h (D r0 c0 r c : Z) :
  1 <= r0 -> r0 + 1 < D -> 2 <= c0 -> c0 + 2 < D ->
  0 <= r < D -> 0 <= c < D ->
  life D (blinker_h r0 c0) r c = blinker_v r0 c0 r c.
Proof.
  intros Hr0 Hr1 Hc0 Hc1 Hr Hc.
  unfold life, around, on_grid, blinker_h, blinker_v, rules, in_2_3, count_True.
  decide_coordinates.
Qed.

Lemma life_blinker_v (D r0 c0 r c : Z) :
  1 <= r0 -> r0 + 1 < D -> 2 <= c0 -> c0 + 2 < D ->
  0 <= r < D -> 0 <= c < D ->
  life D (blinker_v r0 c0) r c = blinker_h r0 c0 r c.
Proof.
  intros Hr0 Hr1 Hc0 Hc1 Hr Hc.
  unfold life, around, on_grid, blinker_h, blinker_v, rules, in_2_3, count_True.
  decide_coordinates.
Qed.

(** * The claims *)

(** C1: on a square grid, for every index [idx] below [size],
    [count_neighbors] returns eight booleans, so the number of [True] among
    them is between 0 and 8; they are exactly the cells at the eight
    positions around row [idx / dim], column [idx mod dim], where every
    position outside the square counts as dead: nothing wraps to the
    opposite edge. *)
Theorem count_neighbors_counts_on_grid (self : GameOfLife) (idx : Z) :
  square self -> in_range (size self) idx ->
  exists ns : list bool,
    value (count_neighbors self idx) = Ok ns /\
    ns = around (cell (grid self) (dim self))
                (idx / dim self) (idx mod dim self) /\
    count_True ns = neighborCount (grid self) (dim self) idx /\
    0 <= count_True ns <= 8.
Proof.
  intros Hsq Hi. pose proof Hsq as (HD & HS & HL).
  assert (Hw : well_shaped self) by (apply square_well_shaped; exact Hsq).
  unfold in_range in Hi. rewrite HS in Hi.
  destruct (index_row_col (dim self) idx ltac:(lia) Hi) as (Hr & Hc & E).
  assert (Hns : neighbors_val (grid self) (dim self) (size self) idx =
                around (cell (grid self) (dim self))
                       (idx / dim self) (idx mod dim self)).
  { rewrite HS. rewrite E at 1. apply neighbors_val_around; assumption. }
  exists (neighbors_val (grid self) (dim self) (size self) idx).
  split; [| split; [exact Hns | split]].
  - rewrite count_neighbors_eq; [reflexivity | exact Hw |].
    unfold in_range. rewrite HL, HS. exact Hi.
  - unfold neighborCount. rewrite Hns. reflexivity.
  - pose proof (count_True_bound
                  (neighbors_val (grid self) (dim self) (size self) idx)) as Hb.
    unfold len in Hb. rewrite neighbors_val_length in Hb. lia.
Qed.

(** C2: on a well shaped grid, for every index, [assess_neighbors] returns
    the next state of the cell from its count [c] of live neighbours: dead
    when [c] is neither 2 nor 3; alive when the cell is alive and [c] is 2
    or 3; alive when the cell is dead and [c] is 3; dead otherwise. *)
Theorem assess_neighbors_applies_rules (self : GameOfLife) (idx : Z) :
  well_shaped self -> in_range (len (grid self)) idx ->
  exists (ns : list bool) (alive b : bool),
    value (count_neighbors self idx) = Ok ns /\
    value (grid_at self idx) = Ok alive /\
    value (assess_neighbors self idx) = Ok b /\
    b = nextState alive (count_True ns) /\
    (count_True ns <> 2 -> count_True ns <> 3 -> b = false) /\
    (alive = true -> count_True ns = 2 \/ count_True ns = 3 -> b = true) /\
    (alive = false -> count_True ns = 3 -> b = true) /\
    (alive = false -> count_True ns = 2 -> b = false).
Proof.
  intros Hw Hi.
  exists (neighbors_val (grid self) (dim self) (size self) idx),
    (get (grid self) idx),
    (assess_val (grid self) (dim self) (size self) idx).
  rewrite count_neighbors_eq, grid_at_eq, assess_neighbors_eq by assumption.
  repeat split; unfold assess_val, rules, nextState, in_2_3;
    destruct (get (grid self) idx);
    destruct (Z.eqb_spec
                (count_True (neighbors_val (grid self) (dim self) (size self) idx)) 2);
    destruct (Z.eqb_spec
                (count_True (neighbors_val (grid self) (dim self) (size self) idx)) 3);
    cbn; intros; try reflexivity; try lia; try discriminate;
    intuition (try lia; try discriminate).
Qed.

Lemma get_next_grid (g : list bool) (D S i : Z) :
  in_range (len g) i -> get (next_grid g D S) i = assess_val g D S i.
Proof. intros Hi. unfold next_grid. apply get_map_xrange. exact Hi. Qed.

(** C3: on a well shaped grid, [sweep] leaves [grid] as it was and fills
    [res] with as many cells as [grid] has, cell [i] being what
    [assess_neighbors] returns for [i] on the state before the sweep,
    although the loop passes on a state whose [res] grows; the step then
    makes that list the new grid. *)
Theorem sweep_reads_only_old_grid (self : GameOfLife) :
  well_shaped self ->
  exists swept : GameOfLife,
    value (sweep self) = Ok swept /\
    grid swept = grid self /\
    len (res swept) = len (grid self) /\
    (forall i, in_range (len (grid self)) i ->
               value (assess_neighbors self i) = Ok (get (res swept) i)) /\
    step self = Ok (set_grid swept (res swept)) /\
    len (grid (set_grid swept (res swept))) = len (grid self).
Proof.
  intros Hw.
  exists (set_res self (next_grid (grid self) (dim self) (size self))).
  assert (Hlen : len (next_grid (grid self) (dim self) (size self)) =
                 len (grid self))
    by (unfold len; rewrite next_grid_length; reflexivity).
  split; [apply sweep_eq; exact Hw |].
  split; [reflexivity |].
  split; [exact Hlen |].
  split.
  - intros i Hi. cbn [res set_res].
    rewrite get_next_grid by exact Hi. apply assess_neighbors_eq; assumption.
  - split; [| exact Hlen].
    unfold step. rewrite sweep_eq by exact Hw. reflexivity.
Qed.

(** C6: on the 3x3 grid with every cell alive, the centre has 8 live
    neighbours, each cell in the middle of an edge has 5 and each corner
    has 3; one step leaves exactly the corners 0, 2, 6 and 8 alive. *)
Theorem full_3x3_keeps_corners (r : list bool) (it : option Z) (gd : bool) :
  live_neighbors (full_3x3 r it gd) 4 = Ok 8 /\
  map (live_neighbors (full_3x3 r it gd)) [1; 3; 5; 7] =
    [Ok 5; Ok 5; Ok 5; Ok 5] /\
  map (live_neighbors (full_3x3 r it gd)) [0; 2; 6; 8] =
    [Ok 3; Ok 3; Ok 3; Ok 3] /\
  step (full_3x3 r it gd) = Ok (mkGame corners_3x3 corners_3x3 9 3 it gd).
Proof. repeat split. Qed.

(** C7: on a square grid whose only live cells are a 2x2 block with at
    least one dead row and column on every side, the step returns the same
    grid. *)
Theorem block_is_still (self : GameOfLife) (r0 c0 : Z) :
  square self ->
  1 <= r0 -> r0 + 2 < dim self -> 1 <= c0 -> c0 + 2 < dim self ->
  grid self = plane (dim self) (block r0 c0) ->
  exists self' : GameOfLife, step self = Ok self' /\ grid self' = grid self.
Proof.
  intros Hsq Hr0 Hr1 Hc0 Hc1 Hg.
  destruct (step_plane self _ Hsq Hg) as (self' & Hstep & Hg' & _ & _).
  exists self'. split; [exact Hstep |].
  rewrite Hg', Hg. apply plane_ext; [lia |].
  intros r c Hr Hc. apply life_block; assumption.
Qed.

(** C8: on a square grid whose only live cells are three in a row, with
    dead rows above and below and dead columns on both sides, one step
    gives the three cells in a column through the middle one, and a second
    step gives the first grid back. *)
Theorem blinker_has_period_two (self : GameOfLife) (r0 c0 : Z) :
  square self ->
  1 <= r0 -> r0 + 1 < dim self -> 2 <= c0 -> c0 + 2 < dim self ->
  grid self = plane (dim self) (blinker_h r0 c0) ->
  exists once twice : GameOfLife,
    step self = Ok once /\
    grid once = plane (dim self) (blinker_v r0 c0) /\
    step once = Ok twice /\
    grid twice = grid self.
Proof.
  intros Hsq Hr0 Hr1 Hc0 Hc1 Hg. pose proof Hsq as (HD & _ & _).
  destruct (step_plane self _ Hsq Hg) as (once & Hstep1 & Hg1 & Hsq1 & Hd1).
  assert (Hv : grid once = plane (dim once) (blinker_v r0 c0)).
  { rewrite Hg1, Hd1. apply plane_ext; [lia |].
    intros r c Hr Hc. apply life_blinker_h; assumption. }
  destruct (step_plane once _ Hsq1 Hv) as (twice & Hstep2 & Hg2 & _ & _).
  exists once, twice.
  split; [exact Hstep1 |].
  split; [rewrite Hv, Hd1; reflexivity |].
  split; [exact Hstep2 |].
  rewrite Hg2, Hg, Hd1. apply plane_ext; [lia |].
  intros r c Hr Hc. apply life_blinker_v; assumption.
Qed.

(** C9: with a limit of [N] > 0 iterations on a well shaped grid, the loop
    of [play], started with the counter at 0, shows the generations 0 to
    [N], each followed by a second of sleep, then prints the closing
    message and exits with status 0; it has not stopped after any smaller
    number of turns. *)
Theorem play_loop_stops_after_limit (self : GameOfLife) (N : Z) :
  well_shaped self -> iterations self = Some N -> 0 < N ->
  play_loop (S (Z.to_nat N)) self 0 =
    (frames (S (Z.to_nat N)) self ++ [Print over_msg], Some (Exit 0)) /\
  (forall fuel : nat, (fuel <= Z.to_nat N)%nat ->
                      snd (play_loop fuel self 0) = None).
Proof.
  intros Hw Hit HN. split.
  - apply (play_loop_exits _ self 0 N); try assumption; lia.
  - intros fuel Hfuel.
    apply (play_loop_running fuel self 0 N); try assumption; lia.
Qed.

(** C10: on a square grid with exactly [size] cells, for every index below
    [size], [count_neighbors] returns without raising and every index it
    subscripts the grid with lies in the range from 0 to [size] - 1. *)
Theorem count_neighbors_reads_inside (self : GameOfLife) (idx : Z) :
  square self -> in_range (size self) idx ->
  (exists ns : list bool, value (count_neighbors self idx) = Ok ns) /\
  Forall (in_range (size self)) (reads (count_neighbors self idx)) /\
  Forall (fun i => index (grid self) i = Ok (get (grid self) i))
         (reads (count_neighbors self idx)).
Proof.
  intros Hsq Hi. pose proof Hsq as (HD & HS & HL).
  assert (Hw : well_shaped self) by (apply square_well_shaped; exact Hsq).
  assert (Hi' : in_range (len (grid self)) idx) by (rewrite HL; exact Hi).
  rewrite count_neighbors_eq by assumption. cbn [value reads fst snd].
  assert (Hin : Forall (in_range (size self))
                  (neighbors_reads (dim self) (size self) idx)).
  { apply neighbors_reads_in_range; try lia; [| exact Hi].
    rewrite HS. apply Z.mod_mul. lia. }
  split; [eexists; reflexivity |].
  split; [exact Hin |].
  eapply Forall_impl; [| exact Hin].
  intros i Hii. apply index_get. rewrite HL. exact Hii.
Qed.

(** ** initialize, and whole runs *)

Lemma append_random_loop (rnd : nat -> Q) (todo : list Z) :
  forall self : GameOfLife,
  fold_left
    (fun self i =>
       set_grid self (grid self ++ [Qle_bool (1 # 2) (rnd (Z.to_nat i))]))
    todo self =
  set_grid self
    (grid self ++ map (fun i => Qle_bool (1 # 2) (rnd (Z.to_nat i))) todo).
Proof.
  induction todo as [| i todo IH]; intros self; cbn [fold_left map].
  - rewrite app_nil_r. destruct self; reflexivity.
  - rewrite IH. unfold set_grid; cbn [grid res size dim iterations god].
    rewrite <- app_assoc. reflexivity.
Qed.

Lemma append_random_eq (env : Env) (self : GameOfLife) :
  append_random env self =
  set_grid self
    (grid self ++
     map (fun i => Qle_bool (1 # 2) (random env (Z.to_nat i)))
         (xrange (size self))).
Proof. unfold append_random. apply append_random_loop. Qed.

Lemma append_words_eq (words : list ascii) (todo : list Z) :
  forall self : GameOfLife,
  Forall (in_range (len words)) todo ->
  append_words self words todo =
  Ok (set_grid self
        (grid self ++
         map (fun i => odd_ord (nth (Z.to_nat i) words Ascii.zero)) todo)).
Proof.
  induction todo as [| i todo IH]; intros self Hall; cbn [append_words map].
  - rewrite app_nil_r. destruct self; reflexivity.
  - inversion Hall as [| ? ? Hi Hrest]; subst.
    rewrite (index_nth words Ascii.zero) by exact Hi.
    rewrite IH by exact Hrest.
    unfold set_grid; cbn [grid res size dim iterations god].
    rewrite <- app_assoc. reflexivity.
Qed.

(** In word mode [initialize] does not return after the words: the random
    cells are appended behind them. *)
Lemma initialize_god_adds_random (env : Env) (fuel : nat) (self : GameOfLife)
  (words : list ascii) :
  god self = true -> gods_word env = Some words -> size self <= len words ->
  initialize env (S fuel) self =
  Some (Ok (set_grid self
              (grid self ++
               map (fun i => odd_ord (nth (Z.to_nat i) words Ascii.zero))
                   (xrange (size self)) ++
               map (fun i => Qle_bool (1 # 2) (random env (Z.to_nat i)))
                   (xrange (size self))))).
Proof.
  intros Hgod Hfile Hlen.
  unfold initialize, initialize_by_gods_word. rewrite Hgod, Hfile.
  cbn [lengthen]. destruct (Z.ltb_spec (len words) (size self)); [lia |].
  rewrite append_words_eq.
  - rewrite append_random_eq.
    unfold set_grid; cbn [grid res size dim iterations god].
    rewrite <- app_assoc. reflexivity.
  - eapply Forall_impl; [| apply xrange_in_range].
    unfold in_range. intros i Hi. lia.
Qed.

Lemma initialize_random_eq (env : Env) (fuel : nat) (self : GameOfLife) :
  god self = false ->
  initialize env fuel self = Some (Ok (append_random env self)).
Proof. intros Hgod. unfold initialize. rewrite Hgod. reflexivity. Qed.

Lemma append_random_square (env : Env) (D : Z) (it : option Z) (gd : bool) :
  1 <= D -> square (append_random env (mkGame [] [] (D * D) D it gd)).
Proof.
  intros HD. rewrite append_random_eq. unfold square.
  cbn [grid size dim set_grid app]. unfold len.
  rewrite length_map, xrange_length. repeat split; nia.
Qed.

(** A whole run in random mode on a square size with a limit. *)
Lemma init_random_stops_after_limit (env : Env) (D N : Z) :
  1 <= D -> 0 < N ->
  init env (S (Z.to_nat N)) (D * D) (Some N) false =
  (frames (S (Z.to_nat N))
          (append_random env (mkGame [] [] (D * D) D (Some N) false))
   ++ [Print over_msg], Some (Exit 0)).
Proof.
  intros HD HN. unfold init, play.
  rewrite Z.sqrt_square by lia.
  rewrite initialize_random_eq by reflexivity.
  apply (play_loop_exits _ _ 0 N); try lia.
  - apply square_well_shaped, append_random_square; exact HD.
  - rewrite append_random_eq. reflexivity.
Qed.

(** C4 (the code differs): with the four bytes [abcd] in the file and size
    4, [initialize] in word mode returns a grid of 8 cells; the first four
    are the parities of the bytes, the last four are drawn from the random
    source, whatever it is. *)
Theorem initialize_word_mode_also_random (rnd : nat -> Q) :
  initialize (abcd_file rnd) 1 (mkGame [] [] 4 2 None true) =
  Some (Ok (mkGame
              ([true; false; true; false] ++
               [Qle_bool (1 # 2) (rnd 0%nat); Qle_bool (1 # 2) (rnd 1%nat);
                Qle_bool (1 # 2) (rnd 2%nat); Qle_bool (1 # 2) (rnd 3%nat)])
              [] 4 2 None true)).
Proof. reflexivity. Qed.

(** C5 (the code differs): with size 8, which has no integer square root,
    the main program writes its message and then runs the game to the end
    of the limit; with size 10 it writes the message, shows the first
    generation and fails inside the first sweep with an [IndexError]. *)
Theorem main_runs_without_square_root :
  sqrt_not_integer 8 = true /\
  main no_file 3 8 (Some 2) false =
    ([StderrFormat no_sqrt_msg 8;
      Display [true; false; true; false; true; false; true; false]; Sleep 1;
      Display [false; false; true; true; true; true; false; false]; Sleep 1;
      Display [false; false; true; true; true; true; false; false]; Sleep 1;
      Print over_msg],
     Some (Exit 0)) /\
  sqrt_not_integer 10 = true /\
  main no_file 3 10 None false =
    ([StderrFormat no_sqrt_msg 10;
      Display [true; false; true; false; true; false; true; false; true; false];
      Sleep 1],
     Some (Uncaught IndexError)).
Proof. repeat split. Qed.

(** * The theorems at concrete inputs *)

Ltac evaluate :=
  repeat split; vm_compute; first [reflexivity | discriminate].

Lemma count_neighbors_counts_on_grid_witness :
  square (full_3x3 [] None false) /\
  in_range (size (full_3x3 [] None false)) 0 /\
  exists ns : list bool,
    value (count_neighbors (full_3x3 [] None false) 0) = Ok ns /\
    ns = around (cell (grid (full_3x3 [] None false))
                      (dim (full_3x3 [] None false)))
                (0 / dim (full_3x3 [] None false))
                (0 mod dim (full_3x3 [] None false)) /\
    count_True ns =
      neighborCount (grid (full_3x3 [] None false))
                    (dim (full_3x3 [] None false)) 0 /\
    0 <= count_True ns <= 8.
Proof.
  assert (Hsq : square (full_3x3 [] None false))
    by (unfold square; evaluate).
  assert (Hi : in_range (size (full_3x3 [] None false)) 0)
    by (unfold in_range; evaluate).
  split; [exact Hsq |]. split; [exact Hi |].
  exact (count_neighbors_counts_on_grid (full_3x3 [] None false) 0 Hsq Hi).
Defined.

Lemma assess_neighbors_applies_rules_witness :
  well_shaped (full_3x3 [] None false) /\
  in_range (len (grid (full_3x3 [] None false))) 4 /\
  exists (ns : list bool) (alive b : bool),
    value (count_neighbors (full_3x3 [] None false) 4) = Ok ns /\
    value (grid_at (full_3x3 [] None false) 4) = Ok alive /\
    value (assess_neighbors (full_3x3 [] None false) 4) = Ok b /\
    b = nextState alive (count_True ns) /\
    (count_True ns <> 2 -> count_True ns <> 3 -> b = false) /\
    (alive = true -> count_True ns = 2 \/ count_True ns = 3 -> b = true) /\
    (alive = false -> count_True ns = 3 -> b = true) /\
    (alive = false -> count_True ns = 2 -> b = false).
Proof.
  assert (Hw : well_shaped (full_3x3 [] None false))
    by (unfold well_shaped; evaluate).
  assert (Hi : in_range (len (grid (full_3x3 [] None false))) 4)
    by (unfold in_range; evaluate).
  split; [exact Hw |]. split; [exact Hi |].
  exact (assess_neighbors_applies_rules (full_3x3 [] None false) 4 Hw Hi).
Defined.

Lemma sweep_reads_only_old_grid_witness :
  well_shaped (full_3x3 [] None false) /\
  exists swept : GameOfLife,
    value (sweep (full_3x3 [] None false)) = Ok swept /\
    grid swept = grid (full_3x3 [] None false) /\
    len (res swept) = len (grid (full_3x3 [] None false)) /\
    (forall i, in_range (len (grid (full_3x3 [] None false))) i ->
               value (assess_neighbors (full_3x3 [] None false) i) =
               Ok (get (res swept) i)) /\
    step (full_3x3 [] None false) = Ok (set_grid swept (res swept)) /\
    len (grid (set_grid swept (res swept))) =
      len (grid (full_3x3 [] None false)).
Proof.
  assert (Hw : well_shaped (full_3x3 [] None false))
    by (unfold well_shaped; evaluate).
  split; [exact Hw |].
  exact (sweep_reads_only_old_grid (full_3x3 [] None false) Hw).
Defined.

Lemma block_is_still_witness :
  square (board 4 (block 1 1)) /\
  exists self' : GameOfLife,
    step (board 4 (block 1 1)) = Ok self' /\
    grid self' = grid (board 4 (block 1 1)).
Proof.
  assert (Hsq : square (board 4 (block 1 1)))
    by (unfold square; evaluate).
  split; [exact Hsq |].
  apply (block_is_still (board 4 (block 1 1)) 1 1 Hsq);
    evaluate.
Defined.

Lemma blinker_has_period_two_witness :
  square (board 5 (blinker_h 2 2)) /\
  exists once twice : GameOfLife,
    step (board 5 (blinker_h 2 2)) = Ok once /\
    grid once = plane (dim (board 5 (blinker_h 2 2))) (blinker_v 2 2) /\
    step once = Ok twice /\
    grid twice = grid (board 5 (blinker_h 2 2)).
Proof.
  assert (Hsq : square (board 5 (blinker_h 2 2)))
    by (unfold square; evaluate).
  split; [exact Hsq |].
  apply (blinker_has_period_two (board 5 (blinker_h 2 2)) 2 2 Hsq);
    evaluate.
Defined.

Lemma play_loop_stops_after_limit_witness :
  well_shaped (full_3x3 [] (Some 2) false) /\
  play_loop 3 (full_3x3 [] (Some 2) false) 0 =
    (frames 3 (full_3x3 [] (Some 2) false) ++ [Print over_msg],
     Some (Exit 0)) /\
  (forall fuel : nat, (fuel <= 2)%nat ->
                      snd (play_loop fuel (full_3x3 [] (Some 2) false) 0) = None).
Proof.
  assert (Hw : well_shaped (full_3x3 [] (Some 2) false))
    by (unfold well_shaped; evaluate).
  split; [exact Hw |].
  apply (play_loop_stops_after_limit (full_3x3 [] (Some 2) false) 2 Hw);
    [reflexivity | lia].
Defined.

Lemma count_neighbors_reads_inside_witness :
  square (full_3x3 [] None false) /\
  in_range (size (full_3x3 [] None false)) 8 /\
  (exists ns : list bool,
      value (count_neighbors (full_3x3 [] None false) 8) = Ok ns) /\
  Forall (in_range (size (full_3x3 [] None false)))
         (reads (count_neighbors (full_3x3 [] None false) 8)) /\
  Forall (fun i => index (grid (full_3x3 [] None false)) i =
                   Ok (get (grid (full_3x3 [] None false)) i))
         (reads (count_neighbors (full_3x3 [] None false) 8)).
Proof.
  assert (Hsq : square (full_3x3 [] None false))
    by (unfold square; evaluate).
  assert (Hi : in_range (size (full_3x3 [] None false)) 8)
    by (unfold in_range; evaluate).
  split; [exact Hsq |]. split; [exact Hi |].
  exact (count_neighbors_reads_inside (full_3x3 [] None false) 8 Hsq Hi).
Defined.

(** * More about the code *)

Lemma bind_Ok {A B : Type} (m : M A) (f : A -> M B) (b : B) :
  value (bind m f) = Ok b ->
  exists a, value m = Ok a /\ value (f a) = Ok b.
Proof.
  rewrite value_bind. destruct (value m) as [a | e]; [| discriminate].
  intros H. exists a. split; [reflexivity | exact H].
Qed.

Ltac invert_Ok :=
  repeat match goal with
    | H : value (bind _ _) = Ok _ |- _ =>
        let a := fresh "a" in
        let Ha := fresh "Ha" in
        apply bind_Ok in H; destruct H as (a & Ha & H)
    | H : value (if ?b then _ else _) = Ok _ |- _ => destruct b
    | H : value (ret _) = Ok _ |- _ => inversion H; subst; clear H
    end.

(** X1: on any grid at all, whenever [count_neighbors] returns, it returns
    exactly eight entries, so the number of [True] among them is between 0
    and 8. *)
Theorem count_neighbors_eight (self : GameOfLife) (idx : Z) (ns : list bool) :
  value (count_neighbors self idx) = Ok ns ->
  List.length ns = 8%nat /\ 0 <= count_True ns <= 8.
Proof.
  intros H.
  assert (L : List.length ns = 8%nat).
  { unfold count_neighbors in H. invert_Ok; reflexivity. }
  split; [exact L |].
  pose proof (count_True_bound ns) as Hb. unfold len in Hb. lia.
Qed.

Lemma bind_Raise {A B : Type} (m : M A) (f : A -> M B) (e : exn) :
  value (bind m f) = Raise e ->
  value m = Raise e \/ exists a, value m = Ok a /\ value (f a) = Raise e.
Proof.
  rewrite value_bind. destruct (value m) as [a | e'].
  - intros H. right. exists a. split; [reflexivity | exact H].
  - intros H. left. inversion H. reflexivity.
Qed.

Lemma index_raises {A : Type} (l : list A) (i : Z) (e : exn) :
  index l i = Raise e -> e = IndexError.
Proof.
  unfold index.
  destruct ((0 <=? _) && (_ <? _)); [destruct (nth_error _ _) |];
    intros H; inversion H; reflexivity.
Qed.

Lemma False_if_edge_raises (self : GameOfLife) (q i : Z) (e : exn) :
  dim self <> 0 -> value (False_if_edge self q i) = Raise e -> e = IndexError.
Proof.
  intros HD. unfold False_if_edge, modulo.
  destruct (Z.eqb_spec (dim self) 0); [contradiction |].
  cbn [lift bind]. destruct (_ =? 0); cbn.
  - discriminate.
  - apply index_raises.
Qed.

Lemma grid_at_raises (self : GameOfLife) (i : Z) (e : exn) :
  value (grid_at self i) = Raise e -> e = IndexError.
Proof. apply index_raises. Qed.

Ltac invert_Raise HD :=
  repeat match goal with
    | H : value (bind _ _) = Raise _ |- _ =>
        let a := fresh "a" in
        apply bind_Raise in H; destruct H as [H | (a & _ & H)]
    | H : value (if ?b then _ else _) = Raise _ |- _ => destruct b
    | H : value (ret _) = Raise _ |- _ => discriminate H
    | H : value (False_if_edge _ _ _) = Raise _ |- _ =>
        exact (False_if_edge_raises _ _ _ _ HD H)
    | H : value (grid_at _ _) = Raise _ |- _ =>
        exact (grid_at_raises _ _ _ H)
    end.

Lemma count_neighbors_dim_zero (self : GameOfLife) (idx : Z) :
  dim self = 0 -> value (count_neighbors self idx) = Raise ZeroDivisionError.
Proof.
  intros HD. unfold count_neighbors, False_if_edge, modulo. rewrite HD.
  cbn [Z.eqb lift bind]. destruct (idx - 0 <? 0); reflexivity.
Qed.

Lemma count_neighbors_only_IndexError (self : GameOfLife) (idx : Z) (e : exn) :
  dim self <> 0 -> value (count_neighbors self idx) = Raise e -> e = IndexError.
Proof.
  intros HD H. unfold count_neighbors in H. invert_Raise HD.
Qed.

(** X2: with [dim] 0 every call of [count_neighbors] raises
    [ZeroDivisionError], whatever the grid and the index. *)
Theorem count_neighbors_dim_zero_raises (self : GameOfLife) (idx : Z) :
  dim self = 0 -> value (count_neighbors self idx) = Raise ZeroDivisionError.
Proof. apply count_neighbors_dim_zero. Qed.

Lemma assess_neighbors_only_IndexError (self : GameOfLife) (idx : Z) (e : exn) :
  dim self <> 0 -> value (assess_neighbors self idx) = Raise e -> e = IndexError.
Proof.
  intros HD H. unfold assess_neighbors in H.
  apply bind_Raise in H. destruct H as [H | (ns & _ & H)].
  - exact (count_neighbors_only_IndexError _ _ _ HD H).
  - invert_Raise HD.
Qed.

Lemma sweep_loop_fields (todo : list Z) : forall self swept : GameOfLife,
  value (sweep_loop self todo) = Ok swept ->
  grid swept = grid self /\ size swept = size self /\ dim swept = dim self /\
  iterations swept = iterations self /\ god swept = god self /\
  exists l, res swept = res self ++ l /\ List.length l = List.length todo.
Proof.
  induction todo as [| i todo IH]; intros self swept H.
  - cbn in H. inversion H; subst. repeat split. exists []. rewrite app_nil_r. auto.
  - cbn [sweep_loop] in H. apply bind_Ok in H. destruct H as (b & _ & H).
    apply IH in H. cbn [grid res size dim iterations god set_res] in H.
    destruct H as (H1 & H2 & H3 & H4 & H5 & l & Hl & Hlen).
    repeat split; try assumption.
    exists (b :: l). rewrite Hl, <- app_assoc. cbn. auto.
Qed.

(** X4: whenever the step returns, the new grid has as many cells as the
    old one, [res] holds the same list, and [size], [dim], [iterations] and
    [god] are unchanged. *)
Theorem step_keeps_shape (self self' : GameOfLife) :
  step self = Ok self' ->
  len (grid self') = len (grid self) /\ res self' = grid self' /\
  size self' = size self /\ dim self' = dim self /\
  iterations self' = iterations self /\ god self' = god self.
Proof.
  unfold step, sweep. intros H.
  destruct (value (sweep_loop _ _)) as [swept |] eqn:Hs; [| discriminate].
  inversion H; subst; clear H.
  apply sweep_loop_fields in Hs.
  cbn [grid res size dim iterations god set_res set_grid] in *.
  destruct Hs as (H1 & H2 & H3 & H4 & H5 & l & Hl & Hlen).
  cbn [app] in Hl. subst l.
  repeat split; try assumption.
  unfold len. rewrite Hlen, xrange_length. unfold len. lia.
Qed.



Lemma get_repeat_false (n : nat) (i : Z) : get (repeat false n) i = false.
Proof. unfold get. apply nth_repeat. Qed.

Lemma neighbors_val_dead (n : nat) (D S idx : Z) :
  neighbors_val (repeat false n) D S idx = repeat false 8.
Proof.
  unfold neighbors_val, row_val, edge_val. rewrite !get_repeat_false.
  destruct (idx - D <? 0), (idx + D >=? S);
    repeat match goal with |- context [if ?b then false else false] =>
             destruct b end; reflexivity.
Qed.

Lemma map_const_false (l : list Z) (F : Z -> bool) :
  (forall i, F i = false) -> map F l = repeat false (List.length l).
Proof.
  intros HF. induction l as [| i l IH]; cbn; [reflexivity |].
  rewrite HF, IH. reflexivity.
Qed.

(** X5: on a well shaped grid with every cell dead, the step returns a grid
    of the same length with every cell dead. *)
Theorem all_dead_stays_dead (self : GameOfLife) (n : nat) :
  well_shaped self -> grid self = repeat false n ->
  exists self' : GameOfLife, step self = Ok self' /\ grid self' = repeat false n.
Proof.
  intros Hw Hg. exists (generation 1 self).
  split; [apply step_eq; exact Hw |].
  cbn [generation grid set_grid]. unfold next_grid. rewrite Hg.
  rewrite (map_const_false _ _).
  - rewrite xrange_length. unfold len. rewrite Nat2Z.id, repeat_length.
    reflexivity.
  - intros i. unfold assess_val. rewrite neighbors_val_dead, get_repeat_false.
    reflexivity.
Qed.

Lemma index_out {A : Type} (l : list A) (i : Z) :
  len l <= i -> index l i = Raise IndexError.
Proof.
  unfold index, len. intros Hi.
  destruct (Z.ltb_spec i 0) as [Hneg | _]; [lia |].
  destruct (Z.ltb_spec i (Z.of_nat (List.length l))) as [Hlt | _]; [lia |].
  rewrite andb_false_r. reflexivity.
Qed.

Lemma last_cell_raises (self : GameOfLife) :
  0 < dim self -> 0 < size self -> size self mod dim self <> 0 ->
  len (grid self) = size self ->
  value (assess_neighbors self (size self - 1)) = Raise IndexError.
Proof.
  intros HD HS Hm HL. unfold assess_neighbors.
  rewrite value_bind.
  assert (Hfront : False_if_edge self (size self - 1 + 1) (size self - 1 + 1)
                   = (Raise IndexError, [size self - 1 + 1])).
  { unfold False_if_edge, modulo.
    destruct (Z.eqb_spec (dim self) 0); [lia |]. cbn [lift bind].
    rewrite Z.sub_add. destruct (Z.eqb_spec (size self mod dim self) 0);
      [contradiction |].
    unfold grid_at. rewrite index_out by lia. reflexivity. }
  assert (Hc : value (count_neighbors self (size self - 1)) = Raise IndexError).
  { unfold count_neighbors.
    destruct (Z.ltb_spec (size self - 1 - dim self) 0) as [Hup | Hup].
    - cbn [bind ret app].
      rewrite False_if_edge_eq by (try exact HD; inside).
      cbn [bind]. rewrite Hfront. reflexivity.
    - repeat (first
        [ rewrite False_if_edge_eq by (try exact HD; inside)
        | rewrite grid_at_eq by inside ];
        cbn [bind ret app]).
      rewrite Hfront. reflexivity. }
  rewrite Hc. reflexivity.
Qed.

Lemma sweep_loop_Ok_all (todo : list Z) : forall self swept : GameOfLife,
  value (sweep_loop self todo) = Ok swept ->
  forall i, In i todo -> exists b, value (assess_neighbors self i) = Ok b.
Proof.
  induction todo as [| j todo IH]; intros self swept H i Hin; [destruct Hin |].
  cbn [sweep_loop] in H. apply bind_Ok in H. destruct H as (b & Hb & H).
  destruct Hin as [<- | Hin]; [exists b; exact Hb |].
  exact (IH _ _ H i Hin).
Qed.

Lemma sweep_loop_only_IndexError (todo : list Z) :
  forall (self : GameOfLife) (e : exn),
  dim self <> 0 -> value (sweep_loop self todo) = Raise e -> e = IndexError.
Proof.
  induction todo as [| j todo IH]; intros self e HD H; [discriminate H |].
  cbn [sweep_loop] in H. apply bind_Raise in H.
  destruct H as [H | (b & _ & H)].
  - exact (assess_neighbors_only_IndexError _ _ _ HD H).
  - apply (IH (set_res self (res self ++ [b])) e); [exact HD | exact H].
Qed.

Lemma In_xrange (n i : Z) : 0 <= i < n -> In i (xrange n).
Proof.
  intros Hi. unfold xrange. apply in_map_iff. exists (Z.to_nat i).
  split; [lia |]. apply in_seq. lia.
Qed.

Lemma step_ragged (self : GameOfLife) :
  0 < dim self -> 0 < size self -> size self mod dim self <> 0 ->
  len (grid self) = size self ->
  step self = Raise IndexError.
Proof.
  intros HD HS Hm HL. unfold step, sweep.
  destruct (value (sweep_loop _ _)) as [swept | e] eqn:Hs.
  - destruct (sweep_loop_Ok_all _ _ _ Hs (size self - 1)) as (b & Hb).
    + cbn [grid set_res]. apply In_xrange. lia.
    + change (assess_neighbors (set_res self []) (size self - 1))
        with (assess_neighbors self (size self - 1)) in Hb.
      rewrite last_cell_raises in Hb by assumption. discriminate Hb.
  - apply sweep_loop_only_IndexError in Hs; [subst e; reflexivity |].
    cbn [dim set_res]. lia.
Qed.

(** X3: with a [dim] other than 0 the only exception the step can raise is
    [IndexError]. *)
Theorem step_raises_only_IndexError (self : GameOfLife) (e : exn) :
  dim self <> 0 -> step self = Raise e -> e = IndexError.
Proof.
  intros HD H. unfold step, sweep in H.
  destruct (value (sweep_loop _ _)) as [swept | e'] eqn:Hs; [discriminate H |].
  inversion H; subst e'.
  apply sweep_loop_only_IndexError in Hs; [exact Hs | exact HD].
Qed.

(** X6: when the grid has exactly [size] cells and [size] is not a multiple
    of [dim], the step raises [IndexError]: the last cell has a neighbour
    in front that is not in the list. *)
Theorem ragged_grid_sweep_raises (self : GameOfLife) :
  0 < dim self -> 0 < size self -> size self mod dim self <> 0 ->
  len (grid self) = size self ->
  step self = Raise IndexError.
Proof. apply step_ragged. Qed.

Lemma display_shows (self : GameOfLife) :
  dim self <> 0 -> size self <= len (grid self) ->
  display self = ([Display (shown self)], Ok tt).
Proof.
  intros HD HSL. unfold display, shown.
  rewrite display_loop_eq.
  - destruct (Z.eqb_spec (dim self) 0); [contradiction |].
    cbn [app]. unfold xrange. rewrite map_map, firstn_as_map; [reflexivity |].
    unfold len in HSL. lia.
  - eapply Forall_impl; [| apply xrange_in_range].
    unfold in_range. intros i Hi. lia.
Qed.

Lemma random_cells_length (env : Env) (n : Z) :
  len (random_cells env n) = Z.max 0 n.
Proof. unfold len, random_cells. rewrite length_map, xrange_length. lia. Qed.

Lemma sqrt_not_integer_of_ragged (n : Z) :
  0 < n -> n mod Z.sqrt n <> 0 -> sqrt_not_integer n = true.
Proof.
  intros Hn Hm. unfold sqrt_not_integer.
  destruct (Z.eqb_spec (Z.sqrt n * Z.sqrt n) n) as [E | _]; [| reflexivity].
  exfalso. apply Hm. rewrite <- E at 1. apply Z.mod_mul.
  pose proof (Z.sqrt_pos n). lia.
Qed.

(** X7: in random mode, for a size that is not a multiple of its integer
    square root (10, for one), and no limit or a limit of at least 0, the
    main program writes the message about the size, shows the first
    generation, sleeps and ends in an uncaught [IndexError] from the first
    sweep. *)
Theorem main_ragged_size_raises (env : Env) (fuel : nat) (n : Z) (it : option Z) :
  0 < n -> n mod Z.sqrt n <> 0 -> limit_allows_sweep it ->
  main env (S fuel) n it false =
  ([StderrFormat no_sqrt_msg n; Display (random_cells env n); Sleep 1],
   Some (Uncaught IndexError)).
Proof.
  intros Hn Hm Hit. unfold main.
  destruct (Z.ltb_spec n 0); [lia |].
  rewrite sqrt_not_integer_of_ragged by assumption.
  unfold init, play. rewrite initialize_random_eq by reflexivity.
  rewrite append_random_eq. cbn [grid size app].
  assert (HD : 0 < Z.sqrt n) by (apply Z.sqrt_pos; lia).
  set (self := set_grid _ _).
  assert (HL : len (grid self) = n).
  { unfold self. cbn [grid set_grid]. fold (random_cells env n).
    rewrite random_cells_length. lia. }
  cbn [play_loop].
  rewrite display_shows by (unfold self at 1; cbn [dim size set_grid]; lia).
  assert (Hlim : limit_exceeded self (0 + 1) = false).
  { unfold limit_exceeded, self. cbn [iterations set_grid].
    destruct it as [k |]; [| reflexivity]. cbn in Hit.
    destruct (Z.eqb_spec k 0); [reflexivity |].
    destruct (Z.gtb_spec (0 + 1) k); [lia | reflexivity]. }
  rewrite Hlim.
  rewrite step_ragged by (unfold self at 1; cbn; lia || assumption).
  unfold after, shown. cbn [fst snd app].
  replace (firstn _ (grid self)) with (random_cells env n); [reflexivity |].
  unfold self. cbn [grid size set_grid]. fold (random_cells env n).
  symmetry. apply firstn_all2.
  pose proof (random_cells_length env n) as Hl. unfold len in Hl. lia.
Qed.



Lemma play_loop_exits_with_fuel (n : nat) :
  forall (fuel : nat) (self : GameOfLife) (gen N : Z),
  well_shaped self -> iterations self = Some N -> N <> 0 ->
  gen + Z.of_nat n = N -> (n < fuel)%nat ->
  play_loop fuel self gen =
  (frames (S n) self ++ [Print over_msg], Some (Exit 0)).
Proof.
  induction n as [| n IH]; intros fuel self gen N Hw Hit HN Hgen Hfuel;
    (destruct fuel as [| fuel]; [lia |]).
  - cbn [play_loop]. rewrite display_eq by exact Hw.
    unfold limit_exceeded. rewrite Hit.
    destruct (Z.eqb_spec N 0); [contradiction |].
    destruct (Z.gtb_spec (gen + 1) N); [| lia].
    reflexivity.
  - cbn [play_loop]. rewrite display_eq by exact Hw.
    unfold limit_exceeded. rewrite Hit.
    destruct (Z.eqb_spec N 0); [contradiction |].
    destruct (Z.gtb_spec (gen + 1) N); [lia |].
    rewrite step_eq by exact Hw.
    rewrite (IH fuel (generation 1 self) (gen + 1) N);
      [| apply generation_1_shaped; exact Hw | exact Hit | exact HN | lia | lia].
    rewrite (frames_succ (S n)). unfold after. cbn [fst snd app].
    reflexivity.
Qed.

Lemma play_loop_unlimited (fuel : nat) : forall (self : GameOfLife) (gen : Z),
  well_shaped self -> unlimited (iterations self) ->
  play_loop fuel self gen = (frames fuel self, None).
Proof.
  induction fuel as [| fuel IH]; intros self gen Hw Hit; [reflexivity |].
  cbn [play_loop]. rewrite display_eq by exact Hw.
  assert (Hlim : limit_exceeded self (gen + 1) = false)
    by (unfold limit_exceeded; destruct Hit as [-> | ->]; reflexivity).
  rewrite Hlim, step_eq by exact Hw.
  rewrite IH; [| apply generation_1_shaped; exact Hw | exact Hit].
  rewrite frames_succ. reflexivity.
Qed.

(** X9: without a limit, and with a limit of 0 alike, the loop never stops
    on a well shaped grid: after any number of turns it has shown that many
    generations and is still running. *)
Theorem play_loop_without_limit (self : GameOfLife) (fuel : nat) :
  well_shaped self -> unlimited (iterations self) ->
  play_loop fuel self 0 = (frames fuel self, None).
Proof. apply play_loop_unlimited. Qed.

(** X10: when the counter has already reached a limit other than 0, a
    negative limit at the start for one, the loop shows the current grid
    once, sleeps, prints the closing message and exits with status 0
    without sweeping. *)
Theorem play_loop_limit_passed (self : GameOfLife) (fuel : nat) (gen N : Z) :
  dim self <> 0 -> size self <= len (grid self) ->
  iterations self = Some N -> N <> 0 -> N <= gen ->
  play_loop (S fuel) self gen =
  ([Display (shown self); Sleep 1; Print over_msg], Some (Exit 0)).
Proof.
  intros HD HSL Hit HN Hgen. cbn [play_loop].
  rewrite display_shows by assumption.
  unfold limit_exceeded. rewrite Hit.
  destruct (Z.eqb_spec N 0); [contradiction |].
  destruct (Z.gtb_spec (gen + 1) N); [| lia].
  reflexivity.
Qed.

Lemma well_shaped_random (env : Env) (n : Z) (it : option Z) (gd : bool) :
  0 < n -> n mod Z.sqrt n = 0 ->
  well_shaped (mkGame (random_cells env n) [] n (Z.sqrt n) it gd).
Proof.
  intros Hn Hm. unfold well_shaped. cbn [grid size dim].
  rewrite random_cells_length.
  replace (Z.max 0 n) with n by lia.
  pose proof (Z.sqrt_pos n). repeat split; try assumption; lia.
Qed.

(** X8: in random mode, for every size that is a multiple of its integer
    square root, a perfect square or not (8 is 4 rows of 2), a run with a
    limit of [N] > 0 shows the generations 0 to [N] and exits with status
    0; the message about the size comes first exactly when the size is not
    a perfect square. *)
Theorem main_rows_of_dim_runs (env : Env) (n N : Z) :
  0 < n -> n mod Z.sqrt n = 0 -> 0 < N ->
  main env (S (Z.to_nat N)) n (Some N) false =
  ((if sqrt_not_integer n then [StderrFormat no_sqrt_msg n] else [])
   ++ frames (S (Z.to_nat N))
             (mkGame (random_cells env n) [] n (Z.sqrt n) (Some N) false)
   ++ [Print over_msg],
   Some (Exit 0)).
Proof.
  intros Hn Hm HN. unfold main.
  destruct (Z.ltb_spec n 0); [lia |].
  unfold init, play. rewrite initialize_random_eq by reflexivity.
  rewrite append_random_eq. cbn [grid size app set_grid res dim iterations god].
  fold (random_cells env n).
  rewrite (play_loop_exits (Z.to_nat N) _ 0 N);
    [| apply well_shaped_random; assumption | reflexivity | lia | lia].
  reflexivity.
Qed.

(** ** Cells behind the first [size] *)

Lemma get_firstn (g : list bool) (n : nat) (i : Z) :
  0 <= i < Z.of_nat n -> get (firstn n g) i = get g i.
Proof.
  intros Hi. unfold get. rewrite nth_firstn.
  destruct (Nat.ltb_spec (Z.to_nat i) n); [reflexivity | lia].
Qed.

Lemma cell_firstn (g : list bool) (D r c : Z) :
  0 <= D -> cell (firstn (Z.to_nat (D * D)) g) D r c = cell g D r c.
Proof.
  intros HD. unfold cell. destruct (on_grid D r c) eqn:Hon; [| reflexivity].
  unfold on_grid in Hon.
  apply andb_prop in Hon; destruct Hon as [Hon Hc1].
  apply andb_prop in Hon; destruct Hon as [Hon Hc0].
  apply andb_prop in Hon; destruct Hon as [Hr0 Hr1].
  apply Z.leb_le in Hr0, Hc0. apply Z.ltb_lt in Hr1, Hc1.
  apply get_firstn.
  pose proof (row_col_bound D r c ltac:(lia) ltac:(lia)). lia.
Qed.

Lemma assess_val_firstn (g : list bool) (D i : Z) :
  0 < D -> 0 <= i < D * D ->
  assess_val g D (D * D) i =
  assess_val (firstn (Z.to_nat (D * D)) g) D (D * D) i.
Proof.
  intros HD Hi.
  destruct (index_row_col D i HD Hi) as (Hr & Hc & E).
  unfold assess_val.
  rewrite get_firstn by lia.
  rewrite E.
  rewrite !neighbors_val_around by assumption.
  unfold around. rewrite !cell_firstn by lia. reflexivity.
Qed.

Lemma firstn_seq_le (n : nat) : forall a m : nat,
  (n <= m)%nat -> firstn n (seq a m) = seq a n.
Proof.
  induction n as [| n IH]; intros a m Hnm; [reflexivity |].
  destruct m as [| m]; [lia |].
  cbn [seq firstn]. rewrite IH by lia. reflexivity.
Qed.

Lemma firstn_xrange (n m : Z) :
  n <= m -> firstn (Z.to_nat n) (xrange m) = xrange n.
Proof.
  intros Hnm. unfold xrange. rewrite firstn_map, firstn_seq_le by lia.
  reflexivity.
Qed.

Lemma shown_next_grid (g : list bool) (D : Z) :
  0 < D -> D * D <= len g ->
  firstn (Z.to_nat (D * D)) (next_grid g D (D * D)) =
  map (assess_val (firstn (Z.to_nat (D * D)) g) D (D * D)) (xrange (D * D)).
Proof.
  intros HD HL. unfold next_grid.
  rewrite firstn_map, firstn_xrange by exact HL.
  apply map_ext_in. intros i Hi.
  pose proof (xrange_in_range (D * D)) as Hall.
  rewrite Forall_forall in Hall. specialize (Hall i Hi).
  apply assess_val_firstn; assumption.
Qed.

Lemma shown_generation (k : nat) : forall s1 s2 : GameOfLife,
  0 < dim s1 -> size s1 = dim s1 * dim s1 ->
  dim s2 = dim s1 -> size s2 = size s1 ->
  size s1 <= len (grid s1) -> size s2 <= len (grid s2) ->
  shown s1 = shown s2 ->
  shown (generation k s1) = shown (generation k s2).
Proof.
  induction k as [| k IH]; intros s1 s2 HD HS Hd2 Hs2 HL1 HL2 Hsh;
    [exact Hsh |].
  change (generation (S k) s1) with (generation k (generation 1 s1)).
  change (generation (S k) s2) with (generation k (generation 1 s2)).
  apply IH; cbn [generation grid size dim set_grid set_res];
    try assumption.
  - unfold len. rewrite next_grid_length. exact HL1.
  - unfold len. rewrite next_grid_length. exact HL2.
  - unfold shown in *. cbn [grid size set_grid set_res].
    rewrite Hs2, Hd2, HS in *.
    rewrite !shown_next_grid by assumption.
    rewrite Hsh. reflexivity.
Qed.

(** X11: on a square size, the first [size] cells after a step depend only
    on the first [size] cells before it: two well shaped grids that agree
    there agree there after the step, whatever cells follow. *)
Theorem step_shown_ignores_tail (s1 s2 : GameOfLife) :
  well_shaped s1 -> well_shaped s2 ->
  size s1 = dim s1 * dim s1 -> dim s2 = dim s1 -> size s2 = size s1 ->
  shown s1 = shown s2 ->
  exists s1' s2' : GameOfLife,
    step s1 = Ok s1' /\ step s2 = Ok s2' /\ shown s1' = shown s2'.
Proof.
  intros Hw1 Hw2 HS Hd2 Hs2 Hsh.
  exists (generation 1 s1), (generation 1 s2).
  split; [apply step_eq; exact Hw1 |].
  split; [apply step_eq; exact Hw2 |].
  destruct Hw1 as (HD1 & _ & _ & HL1). destruct Hw2 as (_ & _ & _ & HL2).
  apply shown_generation; assumption.
Qed.

Lemma frames_ignore_tail (n : nat) (s1 s2 : GameOfLife) :
  0 < dim s1 -> size s1 = dim s1 * dim s1 ->
  dim s2 = dim s1 -> size s2 = size s1 ->
  size s1 <= len (grid s1) -> size s2 <= len (grid s2) ->
  shown s1 = shown s2 ->
  frames n s1 = frames n s2.
Proof.
  intros HD HS Hd2 Hs2 HL1 HL2 Hsh. unfold frames.
  rewrite !flat_map_concat_map. f_equal. apply map_ext. intros k.
  pose proof (shown_generation k s1 s2 HD HS Hd2 Hs2 HL1 HL2 Hsh) as Hk.
  unfold shown in Hk.
  assert (F : forall s, size (generation k s) = size s).
  { clear. induction k as [| k IH]; intros s; [reflexivity |].
    rewrite generation_succ, IH. reflexivity. }
  rewrite !F in Hk. rewrite Hk. reflexivity.
Qed.

(** ** The words *)

Lemma periodic_self (words : list ascii) :
  words <> [] -> periodic words words.
Proof.
  intros Hne. unfold periodic.
  assert (0 < len words) by (unfold len; destruct words; [contradiction | cbn; lia]).
  split; [assumption |]. split; [apply Z.mod_same; lia |].
  intros i Hi. rewrite Z.mod_small by lia. reflexivity.
Qed.

Lemma periodic_double (words w : list ascii) :
  0 < len words -> periodic words w -> periodic words (w ++ w).
Proof.
  intros Hn (Hpos & Hmod & Hnth). unfold periodic.
  assert (Hlen : len (w ++ w) = len w + len w)
    by (unfold len; rewrite length_app; lia).
  rewrite Hlen. split; [lia |]. split.
  - rewrite Z.add_mod, Hmod by lia. reflexivity.
  - intros i Hi. destruct (Z.lt_ge_cases i (len w)) as [Hlt | Hge].
    + rewrite app_nth1 by (unfold len in Hlt; lia). apply Hnth. lia.
    + rewrite app_nth2 by (unfold len in Hge; lia).
      replace (Z.to_nat i - List.length w)%nat with (Z.to_nat (i - len w))
        by (unfold len; lia).
      rewrite Hnth by lia. do 2 f_equal.
      apply Z.mod_divide in Hmod; [| lia]. destruct Hmod as (q & Hq).
      rewrite Hq. replace (i - q * len words) with (i + (- q) * len words) by lia.
      apply Z.mod_add. lia.
Qed.

Lemma lengthen_periodic (words : list ascii) (n : Z) (fuel : nat) :
  forall w : list ascii,
  0 < len words -> periodic words w -> n - len w <= Z.of_nat fuel ->
  exists w' : list ascii,
    lengthen (S fuel) w n = Some w' /\ n <= len w' /\ periodic words w'.
Proof.
  induction fuel as [| fuel IH]; intros w Hn Hp Hfuel.
  - cbn [lengthen]. destruct (Z.ltb_spec (len w) n); [lia |].
    exists w. repeat split; try assumption; apply Hp.
  - change (lengthen (S (S fuel)) w n)
      with (if len w <? n then lengthen (S fuel) (w ++ w) n else Some w).
    destruct (Z.ltb_spec (len w) n) as [Hlt | Hge].
    + apply IH; [exact Hn | apply periodic_double; assumption |].
      destruct Hp as (Hpos & _ & _).
      unfold len in *. rewrite length_app. lia.
    + exists w. repeat split; try assumption; apply Hp.
Qed.

Lemma append_words_periodic (words w : list ascii) (n : Z) (self : GameOfLife) :
  periodic words w -> n <= len w ->
  append_words self w (xrange n) =
  Ok (set_grid self (grid self ++ word_cells words n)).
Proof.
  intros (_ & _ & Hnth) Hn.
  rewrite append_words_eq.
  - unfold word_cells. do 3 f_equal. apply map_ext_in. intros i Hi.
    pose proof (xrange_in_range n) as Hall.
    rewrite Forall_forall in Hall. specialize (Hall i Hi). unfold in_range in Hall.
    rewrite Hnth by lia. reflexivity.
  - eapply Forall_impl; [| apply xrange_in_range].
    unfold in_range. intros i Hi. lia.
Qed.

Lemma initialize_words_then_random (env : Env) (fuel : nat) (self : GameOfLife)
  (words : list ascii) :
  god self = true -> gods_word env = Some words -> words <> [] ->
  size self - len words <= Z.of_nat fuel ->
  initialize env (S fuel) self =
  Some (Ok (set_grid self
              (grid self ++ word_cells words (size self)
                         ++ random_cells env (size self)))).
Proof.
  intros Hgod Hfile Hne Hfuel.
  assert (Hn : 0 < len words)
    by (unfold len; destruct words; [contradiction | cbn; lia]).
  destruct (lengthen_periodic words (size self) fuel words Hn
              (periodic_self words Hne) Hfuel) as (w' & Hw' & Hlen & Hp).
  unfold initialize, initialize_by_gods_word. rewrite Hgod, Hfile, Hw'.
  rewrite (append_words_periodic words w') by assumption.
  rewrite append_random_eq.
  unfold set_grid, random_cells; cbn [grid res size dim iterations god].
  rewrite <- app_assoc. reflexivity.
Qed.

(** X12: in word mode with a file that is not empty, [initialize] returns
    once the words have been doubled often enough, and it has appended
    first [size] cells, cell [i] being the parity of byte [i mod len(words)]
    of the file, and then [size] cells from the random source. *)
Theorem initialize_word_mode (env : Env) (fuel : nat) (self : GameOfLife)
  (words : list ascii) :
  god self = true -> gods_word env = Some words -> words <> [] ->
  size self - len words <= Z.of_nat fuel ->
  initialize env (S fuel) self =
  Some (Ok (set_grid self
              (grid self ++ word_cells words (size self)
                         ++ random_cells env (size self)))).
Proof. apply initialize_words_then_random. Qed.

Lemma lengthen_empty (fuel : nat) (n : Z) :
  0 < n -> lengthen fuel [] n = None.
Proof.
  intros Hn. induction fuel as [| fuel IH]; [reflexivity |].
  cbn [lengthen app]. destruct (Z.ltb_spec (len (@nil ascii)) n) as [_ | H].
  - exact IH.
  - unfold len in H. cbn in H. lia.
Qed.

(** X14: in word mode with an empty file and a size above 0, the main
    program never gets past the loop that lengthens the words: whatever
    the fuel, it has written at most the message about the size and is
    still running. *)
Theorem main_empty_file_hangs (env : Env) (fuel : nat) (n : Z) (it : option Z) :
  gods_word env = Some [] -> 0 < n ->
  main env fuel n it true =
  (if sqrt_not_integer n then [StderrFormat no_sqrt_msg n] else [], None).
Proof.
  intros Hfile Hn. unfold main.
  destruct (Z.ltb_spec n 0); [lia |].
  unfold init, play, initialize, initialize_by_gods_word.
  cbn [god size]. rewrite Hfile, lengthen_empty by exact Hn.
  unfold after. cbn [fst snd]. rewrite app_nil_r. reflexivity.
Qed.

(** X15: in word mode without the file, the main program ends in an
    uncaught [IOError] before anything is shown, after at most the message
    about the size. *)
Theorem main_missing_file_raises (env : Env) (fuel : nat) (n : Z) (it : option Z) :
  gods_word env = None -> 0 <= n ->
  main env fuel n it true =
  (if sqrt_not_integer n then [StderrFormat no_sqrt_msg n] else [],
   Some (Uncaught IOError)).
Proof.
  intros Hfile Hn. unfold main.
  destruct (Z.ltb_spec n 0); [lia |].
  unfold init, play, initialize, initialize_by_gods_word.
  cbn [god size]. rewrite Hfile.
  unfold after. cbn [fst snd]. rewrite app_nil_r. reflexivity.
Qed.

Lemma word_cells_length (words : list ascii) (n : Z) :
  List.length (word_cells words n) = Z.to_nat n.
Proof. unfold word_cells. rewrite length_map, xrange_length. reflexivity. Qed.

(** X13: in word mode on a square size, with a file that is not empty and
    a limit of [N] > 0, the whole run is the one of the grid made of the
    parities of the words alone: the cells that [initialize] also draws
    from the random source never show, in any generation. *)
Theorem init_word_mode_shows_words (env : Env) (fuel : nat) (D N : Z)
  (words : list ascii) :
  1 <= D -> 0 < N -> gods_word env = Some words -> words <> [] ->
  (Z.to_nat N < fuel)%nat -> D * D - len words < Z.of_nat fuel ->
  init env fuel (D * D) (Some N) true =
  (frames (S (Z.to_nat N))
          (mkGame (word_cells words (D * D)) [] (D * D) D (Some N) true)
   ++ [Print over_msg], Some (Exit 0)).
Proof.
  intros HD HN Hfile Hne Hfuel Hlen.
  destruct fuel as [| fuel]; [lia |].
  unfold init, play. rewrite Z.sqrt_square by lia.
  rewrite (initialize_words_then_random env fuel _ words) by (try assumption; try reflexivity; cbn [size]; lia).
  unfold set_grid. cbn [grid size app res dim iterations god].
  set (self := mkGame _ _ _ _ _ _).
  assert (Hl : len (grid self) = 2 * (D * D)).
  { unfold self, len. cbn [grid].
    rewrite length_app, word_cells_length.
    pose proof (random_cells_length env (D * D)) as Hr. unfold len in Hr. nia. }
  assert (Hw : well_shaped self).
  { unfold well_shaped. rewrite Hl. unfold self. cbn [size dim].
    rewrite Z.mod_mul by lia.
    replace (2 * (D * D)) with (2 * D * D) by lia. rewrite Z.mod_mul by lia.
    repeat split; nia. }
  rewrite (play_loop_exits_with_fuel (Z.to_nat N) (S fuel) self 0 N);
    [| exact Hw | reflexivity | lia | lia | lia].
  do 2 f_equal.
  apply frames_ignore_tail; cbn [size dim grid]; try reflexivity; try lia.
  - unfold self; cbn [size dim]. lia.
  - rewrite Hl. unfold self; cbn [size]. nia.
  - unfold self. cbn [size]. unfold len. rewrite word_cells_length. nia.
  - unfold shown, self. cbn [size grid].
    rewrite firstn_app, word_cells_length, Nat.sub_diag.
    cbn [firstn]. rewrite app_nil_r. reflexivity.
Qed.

(** ** display on a grid that is too short *)

Lemma display_loop_fails (self : GameOfLife) (i : Z) (e : exn) (rest : list Z) :
  forall (todo : list Z) (tmp : list bool),
  Forall (in_range (len (grid self))) todo -> index (grid self) i = Raise e ->
  display_loop self tmp (todo ++ i :: rest) = ([PrintInt i], Raise (Exception e)).
Proof.
  induction todo as [| j todo IH]; intros tmp Hall Hi.
  - cbn. rewrite Hi. reflexivity.
  - inversion Hall as [| ? ? Hj Hrest]; subst.
    cbn [app display_loop]. rewrite index_get by exact Hj.
    apply IH; assumption.
Qed.

Lemma xrange_split (m n : Z) :
  0 <= m < n ->
  xrange n = xrange m ++ m :: map Z.of_nat (seq (S (Z.to_nat m)) (Z.to_nat (n - m - 1))).
Proof.
  intros Hmn. unfold xrange.
  replace (Z.to_nat n) with (Z.to_nat m + S (Z.to_nat (n - m - 1)))%nat by lia.
  rewrite seq_app, map_app. cbn [seq map Nat.add]. rewrite Z2Nat.id by lia.
  reflexivity.
Qed.

(** X16: when the grid has fewer than [size] cells, [display] prints the
    index of the first missing cell, which is the length of the grid, and
    raises [Exception] around the [IndexError], before any frame is
    shown. *)
Theorem display_short_grid_raises (self : GameOfLife) :
  len (grid self) < size self ->
  display self =
  ([PrintInt (len (grid self))], Raise (Exception IndexError)).
Proof.
  intros Hshort. unfold display.
  rewrite (xrange_split (len (grid self)) (size self))
    by (unfold len in *; lia).
  rewrite (display_loop_fails self _ IndexError);
    [reflexivity | apply xrange_in_range | apply index_out; lia].
Qed.



(** X18: reading a list of options that is two lists, one after the other,
    is reading the first and then the second from the options the first
    left; help or a failure in the first ends the reading. *)
Theorem read_opts_app (int : string -> option Z) (l1 l2 : list (string * string)) :
  forall opts : Opts,
  read_opts int (l1 ++ l2) opts =
  match read_opts int l1 opts with
  | Parsed opts' => read_opts int l2 opts'
  | Help => Help
  | Failed => Failed
  end.
Proof.
  induction l1 as [| [o a] l1 IH]; intros opts; [reflexivity |].
  cbn [app read_opts].
  destruct (String.eqb o "-s"); [destruct (int a); cbn [option_map] |];
    (destruct (String.eqb o "-n"); [destruct (int a); cbn [option_map] |]);
    try reflexivity; destruct (String.eqb o "-h"); try reflexivity; apply IH.
Qed.

Lemma read_opts_refuses (int : string -> option Z) (optlist : list (string * string)) :
  forall opts : Opts,
  (exists oa, In oa optlist /\ (fst oa = "-h"%string \/ bad_number int oa)) ->
  read_opts int optlist opts = Help \/ read_opts int optlist opts = Failed.
Proof.
  induction optlist as [| [o a] optlist IH]; intros opts (oa & Hin & Hoa);
    [destruct Hin |].
  cbn [read_opts].
  destruct Hin as [E | Hin].
  - subst oa. unfold bad_number in Hoa. cbn [fst snd] in Hoa.
    destruct Hoa as [Ho | [[Ho | Ho] Hint]]; subst o.
    + cbn. left. reflexivity.
    + cbn [String.eqb Ascii.eqb Bool.eqb]. rewrite Hint. right. reflexivity.
    + cbn [String.eqb Ascii.eqb Bool.eqb]. rewrite Hint. right. reflexivity.
  - destruct (String.eqb o "-s"); [destruct (int a); cbn [option_map] |];
      (destruct (String.eqb o "-n"); [destruct (int a); cbn [option_map] |]);
      try (right; reflexivity);
      (destruct (String.eqb o "-h"); [left; reflexivity |]);
      apply IH; exists oa; auto.
Qed.

(** X19: when the options hold [-h], or [-s] or [-n] with an argument that
    is not a number, the script writes the usage line and exits with
    status 1 (after the title for [-h] or after the error text) and the
    game is never started. *)
Theorem script_refuses (int : string -> option Z)
  (optlist : list (string * string)) (env : Env) (fuel : nat) (oa : string * string) :
  In oa optlist -> fst oa = "-h"%string \/ bad_number int oa ->
  refused (script int (Some optlist) env fuel).
Proof.
  intros Hin Hoa. unfold script, refused.
  destruct (read_opts_refuses int optlist default_opts) as [-> | ->];
    [exists oa; auto | right; reflexivity | left; reflexivity].
Qed.

(** X17: in random mode [initialize] appends [size] cells to the grid (none
    for a negative size), cell [i] alive when the [i]-th draw is at least
    one half. *)
Theorem initialize_random_mode (env : Env) (fuel : nat) (self : GameOfLife) :
  god self = false ->
  exists self' : GameOfLife,
    initialize env fuel self = Some (Ok self') /\
    grid self' = grid self ++ random_cells env (size self) /\
    len (grid self') = len (grid self) + Z.max 0 (size self).
Proof.
  intros Hgod.
  exists (set_grid self (grid self ++ random_cells env (size self))).
  split; [| split; [reflexivity |]].
  - rewrite initialize_random_eq by exact Hgod.
    rewrite append_random_eq. reflexivity.
  - cbn [grid set_grid]. unfold len. rewrite length_app.
    pose proof (random_cells_length env (size self)) as Hr.
    unfold len in Hr. lia.
Qed.

(** ** Whole rows, and the loop as a whole *)


Lemma edge_left_rows (g : list bool) (R D r c : Z) :
  0 <= r < R -> 0 <= c < D ->
  edge_val g D (r * D + c) (r * D + c - 1) = cell_rows g R D r (c - 1).
Proof.
  intros Hr Hc. unfold edge_val, cell_rows, on_rows.
  rewrite row_col_mod by lia.
  destruct (Z.eqb_spec c 0) as [-> | Hne].
  - rewrite andb_false_r. reflexivity.
  - destruct (Z.leb_spec 0 r), (Z.ltb_spec r R), (Z.leb_spec 0 (c - 1)),
      (Z.ltb_spec (c - 1) D); try lia.
    cbn [andb]. f_equal. lia.
Qed.

Lemma edge_right_rows (g : list bool) (R D r c : Z) :
  0 <= r < R -> 0 <= c < D ->
  edge_val g D (r * D + c + 1) (r * D + c + 1) = cell_rows g R D r (c + 1).
Proof.
  intros Hr Hc. unfold edge_val, cell_rows, on_rows.
  destruct (Z.eq_dec (c + 1) D) as [E | Hne].
  - replace (r * D + c + 1) with (0 + (r + 1) * D) by lia.
    rewrite Z.mod_add, Z.mod_0_l by lia. cbn [Z.eqb].
    destruct (Z.ltb_spec (c + 1) D); [lia |].
    rewrite andb_false_r. reflexivity.
  - replace (r * D + c + 1) with (r * D + (c + 1)) by lia.
    rewrite row_col_mod by lia.
    destruct (Z.eqb_spec (c + 1) 0); [lia |].
    destruct (Z.leb_spec 0 r), (Z.ltb_spec r R), (Z.leb_spec 0 (c + 1)),
      (Z.ltb_spec (c + 1) D); try lia.
    reflexivity.
Qed.

Lemma cell_rows_inside (g : list bool) (R D r c : Z) :
  0 <= r < R -> 0 <= c < D -> cell_rows g R D r c = get g (r * D + c).
Proof.
  intros Hr Hc. unfold cell_rows, on_rows.
  destruct (Z.leb_spec 0 r), (Z.ltb_spec r R), (Z.leb_spec 0 c),
    (Z.ltb_spec c D); try lia.
  reflexivity.
Qed.

Lemma cell_rows_outside (g : list bool) (R D r c : Z) :
  r < 0 \/ R <= r -> cell_rows g R D r c = false.
Proof.
  intros Hr. unfold cell_rows, on_rows.
  destruct (Z.leb_spec 0 r), (Z.ltb_spec r R); try lia; reflexivity.
Qed.

Lemma row_val_rows (g : list bool) (R D r c : Z) :
  0 <= r < R -> 0 <= c < D ->
  row_val g D (r * D + c) =
  [cell_rows g R D r (c - 1); cell_rows g R D r c; cell_rows g R D r (c + 1)].
Proof.
  intros Hr Hc. unfold row_val.
  rewrite (edge_left_rows g R), (edge_right_rows g R),
    (cell_rows_inside g R D r c) by assumption.
  reflexivity.
Qed.

Lemma neighbors_val_rows (g : list bool) (R D r c : Z) :
  0 <= r < R -> 0 <= c < D ->
  neighbors_val g D (R * D) (r * D + c) = around (cell_rows g R D) r c.
Proof.
  intros Hr Hc. unfold neighbors_val, around.
  rewrite (edge_left_rows g R), (edge_right_rows g R) by assumption.
  replace (r * D + c - D) with ((r - 1) * D + c) by lia.
  replace (r * D + c + D) with ((r + 1) * D + c) by lia.
  destruct (Z.ltb_spec ((r - 1) * D + c) 0) as [Hup | Hup];
    destruct (Z.geb_spec ((r + 1) * D + c) (R * D)) as [Hdown | Hdown].
  all: try (assert (r = 0) by nia).
  all: try (assert (r + 1 = R) by nia).
  all: try (assert (1 <= r) by nia).
  all: try (assert (r + 1 < R) by nia).
  all: rewrite ?(row_val_rows g R) by lia.
  all: rewrite ?(cell_rows_outside g R D (r - 1)) by lia.
  all: rewrite ?(cell_rows_outside g R D (r + 1)) by lia.
  all: reflexivity.
Qed.

(** X20: on a grid of [R] whole rows of [dim] cells, square or not, with
    exactly [size] = [R * dim] cells, [count_neighbors] at row [r], column
    [c] returns the cells at the eight positions around it, every position
    outside the [R] rows and [dim] columns counted as dead. *)
Theorem count_neighbors_on_rows (self : GameOfLife) (R r c : Z) :
  0 < dim self -> size self = R * dim self -> len (grid self) = size self ->
  0 <= r < R -> 0 <= c < dim self ->
  value (count_neighbors self (r * dim self + c)) =
  Ok (around (cell_rows (grid self) R (dim self)) r c).
Proof.
  intros HD HS HL Hr Hc.
  rewrite count_neighbors_eq.
  - cbn [value fst]. rewrite HS. f_equal.
    apply neighbors_val_rows; assumption.
  - unfold well_shaped. rewrite HL, HS, Z.mod_mul by lia.
    repeat split; lia.
  - unfold in_range. rewrite HL, HS. nia.
Qed.

Lemma display_shows_size (self : GameOfLife) :
  well_shaped self -> 0 <= size self ->
  shows_cells (Display (firstn (Z.to_nat (size self)) (grid self))) (size self).
Proof.
  intros (_ & _ & _ & HSL) HS. cbn [shows_cells]. unfold len in *.
  rewrite length_firstn. lia.
Qed.

Lemma play_loop_safe_from (fuel : nat) : forall (self : GameOfLife) (gen : Z),
  well_shaped self -> 0 <= size self ->
  (snd (play_loop fuel self gen) = None \/
   snd (play_loop fuel self gen) = Some (Exit 0)) /\
  Forall (fun ev => shows_cells ev (size self)) (fst (play_loop fuel self gen)).
Proof.
  induction fuel as [| fuel IH]; intros self gen Hw HS.
  - cbn. split; [left; reflexivity | constructor].
  - cbn [play_loop]. rewrite display_eq by exact Hw.
    destruct (limit_exceeded self (gen + 1)).
    + cbn [fst snd app]. split; [right; reflexivity |].
      repeat (apply Forall_cons || apply Forall_nil); try exact I.
      apply display_shows_size; assumption.
    + rewrite step_eq by exact Hw.
      destruct (IH (generation 1 self) (gen + 1)
                  (generation_1_shaped self Hw) HS) as (Hend & Hall).
      unfold after. cbn [fst snd app]. split; [exact Hend |].
      repeat apply Forall_cons; try exact I; [apply display_shows_size; assumption |].
      exact Hall.
Qed.

(** X21: on a well shaped grid with a size of at least 0 the loop of [play]
    never ends in an exception, whatever the limit and however long it
    runs: it is still running or has exited with status 0, and every frame
    it has shown has exactly [size] cells. *)
Theorem play_loop_safe (self : GameOfLife) (fuel : nat) :
  well_shaped self -> 0 <= size self ->
  (snd (play_loop fuel self 0) = None \/
   snd (play_loop fuel self 0) = Some (Exit 0)) /\
  Forall (fun ev => shows_cells ev (size self)) (fst (play_loop fuel self 0)).
Proof. apply play_loop_safe_from. Qed.

(** * These theorems at concrete inputs *)

Lemma count_neighbors_eight_witness :
  value (count_neighbors (full_3x3 [] None false) 0) =
    Ok [false; false; false; false; true; false; true; true] /\
  List.length [false; false; false; false; true; false; true; true] = 8%nat /\
  0 <= count_True [false; false; false; false; true; false; true; true] <= 8.
Proof.
  assert (H : value (count_neighbors (full_3x3 [] None false) 0) =
              Ok [false; false; false; false; true; false; true; true])
    by reflexivity.
  split; [exact H |].
  exact (count_neighbors_eight (full_3x3 [] None false) 0 _ H).
Defined.

Lemma count_neighbors_dim_zero_raises_witness :
  dim (mkGame [true] [] 1 0 None false) = 0 /\
  value (count_neighbors (mkGame [true] [] 1 0 None false) 0) =
    Raise ZeroDivisionError.
Proof.
  split; [reflexivity |].
  apply (count_neighbors_dim_zero_raises (mkGame [true] [] 1 0 None false) 0).
  reflexivity.
Defined.

Lemma step_raises_only_IndexError_witness :
  dim ragged_10 <> 0 /\ step ragged_10 = Raise IndexError /\
  IndexError = IndexError.
Proof.
  assert (HD : dim ragged_10 <> 0) by (vm_compute; discriminate).
  assert (H : step ragged_10 = Raise IndexError) by reflexivity.
  split; [exact HD |]. split; [exact H |].
  exact (step_raises_only_IndexError ragged_10 IndexError HD H).
Defined.

Lemma step_keeps_shape_witness :
  step (full_3x3 [] None false) =
    Ok (mkGame corners_3x3 corners_3x3 9 3 None false) /\
  len (grid (mkGame corners_3x3 corners_3x3 9 3 None false)) =
    len (grid (full_3x3 [] None false)) /\
  res (mkGame corners_3x3 corners_3x3 9 3 None false) =
    grid (mkGame corners_3x3 corners_3x3 9 3 None false) /\
  size (mkGame corners_3x3 corners_3x3 9 3 None false) =
    size (full_3x3 [] None false) /\
  dim (mkGame corners_3x3 corners_3x3 9 3 None false) =
    dim (full_3x3 [] None false) /\
  iterations (mkGame corners_3x3 corners_3x3 9 3 None false) =
    iterations (full_3x3 [] None false) /\
  god (mkGame corners_3x3 corners_3x3 9 3 None false) =
    god (full_3x3 [] None false).
Proof.
  assert (H : step (full_3x3 [] None false) =
              Ok (mkGame corners_3x3 corners_3x3 9 3 None false))
    by reflexivity.
  split; [exact H |].
  exact (step_keeps_shape _ _ H).
Defined.

Lemma all_dead_stays_dead_witness :
  well_shaped dead_3x3 /\ grid dead_3x3 = repeat false 9 /\
  exists self' : GameOfLife,
    step dead_3x3 = Ok self' /\ grid self' = repeat false 9.
Proof.
  assert (Hw : well_shaped dead_3x3) by (unfold well_shaped; evaluate).
  split; [exact Hw |]. split; [reflexivity |].
  exact (all_dead_stays_dead dead_3x3 9 Hw eq_refl).
Defined.

Lemma ragged_grid_sweep_raises_witness :
  0 < dim ragged_10 /\ 0 < size ragged_10 /\
  size ragged_10 mod dim ragged_10 <> 0 /\
  len (grid ragged_10) = size ragged_10 /\
  step ragged_10 = Raise IndexError.
Proof.
  assert (H1 : 0 < dim ragged_10) by reflexivity.
  assert (H2 : 0 < size ragged_10) by reflexivity.
  assert (H3 : size ragged_10 mod dim ragged_10 <> 0)
    by (vm_compute; discriminate).
  assert (H4 : len (grid ragged_10) = size ragged_10) by reflexivity.
  repeat (split; [assumption |]).
  exact (ragged_grid_sweep_raises ragged_10 H1 H2 H3 H4).
Defined.

Lemma main_ragged_size_raises_witness :
  0 < 10 /\ 10 mod Z.sqrt 10 <> 0 /\ limit_allows_sweep None /\
  main no_file 1 10 None false =
  ([StderrFormat no_sqrt_msg 10; Display (random_cells no_file 10); Sleep 1],
   Some (Uncaught IndexError)).
Proof.
  assert (H1 : 0 < 10) by reflexivity.
  assert (H2 : 10 mod Z.sqrt 10 <> 0) by (vm_compute; discriminate).
  assert (H3 : limit_allows_sweep None) by exact I.
  repeat (split; [assumption |]).
  exact (main_ragged_size_raises no_file 0 10 None H1 H2 H3).
Defined.

Lemma main_rows_of_dim_runs_witness :
  0 < 8 /\ 8 mod Z.sqrt 8 = 0 /\ 0 < 2 /\
  main no_file (S (Z.to_nat 2)) 8 (Some 2) false =
  ((if sqrt_not_integer 8 then [StderrFormat no_sqrt_msg 8] else [])
   ++ frames (S (Z.to_nat 2))
             (mkGame (random_cells no_file 8) [] 8 (Z.sqrt 8) (Some 2) false)
   ++ [Print over_msg],
   Some (Exit 0)).
Proof.
  assert (H1 : 0 < 8) by reflexivity.
  assert (H2 : 8 mod Z.sqrt 8 = 0) by reflexivity.
  assert (H3 : 0 < 2) by reflexivity.
  repeat (split; [assumption |]).
  exact (main_rows_of_dim_runs no_file 8 2 H1 H2 H3).
Defined.

Lemma play_loop_without_limit_witness :
  well_shaped (full_3x3 [] (Some 0) false) /\
  unlimited (iterations (full_3x3 [] (Some 0) false)) /\
  play_loop 4 (full_3x3 [] (Some 0) false) 0 =
  (frames 4 (full_3x3 [] (Some 0) false), None).
Proof.
  assert (Hw : well_shaped (full_3x3 [] (Some 0) false))
    by (unfold well_shaped; evaluate).
  assert (Hu : unlimited (iterations (full_3x3 [] (Some 0) false)))
    by (right; reflexivity).
  split; [exact Hw |]. split; [exact Hu |].
  exact (play_loop_without_limit (full_3x3 [] (Some 0) false) 4 Hw Hu).
Defined.

Lemma play_loop_limit_passed_witness :
  dim (full_3x3 [] (Some (-1)) false) <> 0 /\
  size (full_3x3 [] (Some (-1)) false) <=
    len (grid (full_3x3 [] (Some (-1)) false)) /\
  iterations (full_3x3 [] (Some (-1)) false) = Some (-1) /\
  -1 <> 0 /\ -1 <= 0 /\
  play_loop 1 (full_3x3 [] (Some (-1)) false) 0 =
  ([Display (shown (full_3x3 [] (Some (-1)) false)); Sleep 1; Print over_msg],
   Some (Exit 0)).
Proof.
  assert (H1 : dim (full_3x3 [] (Some (-1)) false) <> 0)
    by (vm_compute; discriminate).
  assert (H2 : size (full_3x3 [] (Some (-1)) false) <=
               len (grid (full_3x3 [] (Some (-1)) false)))
    by (vm_compute; discriminate).
  assert (H3 : iterations (full_3x3 [] (Some (-1)) false) = Some (-1))
    by reflexivity.
  assert (H4 : -1 <> 0) by discriminate.
  assert (H5 : -1 <= 0) by (vm_compute; discriminate).
  repeat (split; [assumption |]).
  exact (play_loop_limit_passed (full_3x3 [] (Some (-1)) false) 0 0 (-1)
           H1 H2 H3 H4 H5).
Defined.

Lemma step_shown_ignores_tail_witness :
  well_shaped (mkGame [true; true; true; false; true; true] [] 4 2 None true) /\
  well_shaped (mkGame [true; true; true; false] [] 4 2 None false) /\
  exists s1' s2' : GameOfLife,
    step (mkGame [true; true; true; false; true; true] [] 4 2 None true) = Ok s1' /\
    step (mkGame [true; true; true; false] [] 4 2 None false) = Ok s2' /\
    shown s1' = shown s2'.
Proof.
  assert (H1 : well_shaped
                 (mkGame [true; true; true; false; true; true] [] 4 2 None true))
    by (unfold well_shaped; evaluate).
  assert (H2 : well_shaped (mkGame [true; true; true; false] [] 4 2 None false))
    by (unfold well_shaped; evaluate).
  split; [exact H1 |]. split; [exact H2 |].
  apply (step_shown_ignores_tail _ _ H1 H2); reflexivity.
Defined.

Lemma initialize_word_mode_witness :
  initialize (abcd_file coin) 6 (mkGame [] [] 9 3 None true) =
  Some (Ok (set_grid (mkGame [] [] 9 3 None true)
              (grid (mkGame [] [] 9 3 None true)
               ++ word_cells (list_ascii_of_string "abcd") 9
               ++ random_cells (abcd_file coin) 9))).
Proof.
  apply (initialize_word_mode (abcd_file coin) 5 (mkGame [] [] 9 3 None true)
           (list_ascii_of_string "abcd")).
  - reflexivity.
  - reflexivity.
  - discriminate.
  - vm_compute; discriminate.
Defined.

Lemma init_word_mode_shows_words_witness :
  init (abcd_file coin) 6 (3 * 3) (Some 1) true =
  (frames (S (Z.to_nat 1))
          (mkGame (word_cells (list_ascii_of_string "abcd") (3 * 3)) []
                  (3 * 3) 3 (Some 1) true)
   ++ [Print over_msg], Some (Exit 0)).
Proof.
  apply (init_word_mode_shows_words (abcd_file coin) 6 3 1
           (list_ascii_of_string "abcd")).
  - vm_compute; discriminate.
  - reflexivity.
  - reflexivity.
  - discriminate.
  - vm_compute. repeat constructor.
  - reflexivity.
Defined.

Lemma main_empty_file_hangs_witness :
  main empty_file 7 4 None true =
  (if sqrt_not_integer 4 then [StderrFormat no_sqrt_msg 4] else [], None).
Proof.
  apply (main_empty_file_hangs empty_file 7 4 None); reflexivity.
Defined.

Lemma main_missing_file_raises_witness :
  main no_file 7 4 None true =
  (if sqrt_not_integer 4 then [StderrFormat no_sqrt_msg 4] else [],
   Some (Uncaught IOError)).
Proof.
  apply (main_missing_file_raises no_file 7 4 None);
    [reflexivity | vm_compute; discriminate].
Defined.

Lemma display_short_grid_raises_witness :
  display (mkGame [true] [] 4 2 None false) =
  ([PrintInt (len (grid (mkGame [true] [] 4 2 None false)))],
   Raise (Exception IndexError)).
Proof.
  apply (display_short_grid_raises (mkGame [true] [] 4 2 None false)).
  reflexivity.
Defined.

Lemma initialize_random_mode_witness :
  exists self' : GameOfLife,
    initialize no_file 0 (mkGame [] [] 4 2 None false) = Some (Ok self') /\
    grid self' =
      grid (mkGame [] [] 4 2 None false) ++
      random_cells no_file (size (mkGame [] [] 4 2 None false)) /\
    len (grid self') =
      len (grid (mkGame [] [] 4 2 None false)) +
      Z.max 0 (size (mkGame [] [] 4 2 None false)).
Proof.
  apply (initialize_random_mode no_file 0 (mkGame [] [] 4 2 None false)).
  reflexivity.
Defined.

Lemma script_refuses_witness :
  refused (script (fun _ => None)
                  (Some [("-g", ""); ("-s", "ten"); ("-h", "")])%string
                  no_file 3).
Proof.
  apply (script_refuses (fun _ => None)
           [("-g", ""); ("-s", "ten"); ("-h", "")]%string no_file 3
           ("-s", "ten")%string).
  - right. left. reflexivity.
  - right. split; [left; reflexivity | reflexivity].
Defined.

Lemma count_neighbors_on_rows_witness :
  value (count_neighbors rows_4x2 (3 * dim rows_4x2 + 1)) =
  Ok (around (cell_rows (grid rows_4x2) 4 (dim rows_4x2)) 3 1).
Proof.
  apply (count_neighbors_on_rows rows_4x2 4 3 1);
    try reflexivity; split; vm_compute; first [reflexivity | discriminate].
Defined.

Lemma play_loop_safe_witness :
  well_shaped (full_3x3 [] (Some 1) false) /\
  0 <= size (full_3x3 [] (Some 1) false) /\
  (snd (play_loop 3 (full_3x3 [] (Some 1) false) 0) = None \/
   snd (play_loop 3 (full_3x3 [] (Some 1) false) 0) = Some (Exit 0)) /\
  Forall (fun ev => shows_cells ev (size (full_3x3 [] (Some 1) false)))
         (fst (play_loop 3 (full_3x3 [] (Some 1) false) 0)).
Proof.
  assert (Hw : well_shaped (full_3x3 [] (Some 1) false))
    by (unfold well_shaped; evaluate).
  assert (Hs : 0 <= size (full_3x3 [] (Some 1) false))
    by (vm_compute; discriminate).
  split; [exact Hw |]. split; [exact Hs |].
  exact (play_loop_safe (full_3x3 [] (Some 1) false) 3 Hw Hs).
Defined.
